(** * vk-rpg: swapchain selection policy, frame protocol and push constants

    A shallow embedding of [EngineSwapChain] (Core/GPU/Swapchain.cpp), of the
    inline part of [Material] (Core/Render/Material.h) and of the data
    declared in Core/Render/Attachment.h.

    Conventions.
    - Unsigned machine integers ([uint32_t], [size_t]) are [Z] values,
      with the wrap-around of their arithmetic written out ([wrap32],
      [wrap64]).
    - Vulkan enumerations and handles are the integers of vulkan_core.h.
    - [std::vector] is [list]; [v[i]] is stdpp's lookup [v !! i] and an
      index out of range is undefined behaviour ([UB]).
    - A function that returns a reference returns a [reference]: to an
      object that lives on, or to a local that died with the call;
      reading the second is undefined behaviour.
    - The Vulkan driver and the [EngineDevice] collaborator are an oracle:
      every call the code issues is appended to a log, and what the driver
      answers is a function of the log so far. *)

From stdpp Require Import prelude strings.

Local Open Scope Z_scope.

(** ** Machine integers *)

Definition UINT32_MAX : Z := 4294967295.
Definition UINT64_MAX : Z := 18446744073709551615.

Definition wrap32 (z : Z) : Z := z mod 2 ^ 32.
Definition wrap64 (z : Z) : Z := z mod 2 ^ 64.

(** ** The part of vulkan_core.h the code names *)

Module Vk.

Definition VkResult := Z.
Definition VK_SUCCESS : VkResult := 0.
Definition VK_SUBOPTIMAL_KHR : VkResult := 1000001003.
Definition VK_ERROR_DEVICE_LOST : VkResult := -4.
Definition VK_ERROR_OUT_OF_DATE_KHR : VkResult := -1000001004.

Definition VkFormat := Z.
Definition VK_FORMAT_UNDEFINED : VkFormat := 0.
Definition VK_FORMAT_B8G8R8A8_UNORM : VkFormat := 44.
Definition VK_FORMAT_B8G8R8A8_SRGB : VkFormat := 50.
Definition VK_FORMAT_D32_SFLOAT : VkFormat := 126.
Definition VK_FORMAT_D24_UNORM_S8_UINT : VkFormat := 129.
Definition VK_FORMAT_D32_SFLOAT_S8_UINT : VkFormat := 130.

Definition VkColorSpaceKHR := Z.
Definition VK_COLOR_SPACE_SRGB_NONLINEAR_KHR : VkColorSpaceKHR := 0.

Definition VkPresentModeKHR := Z.
Definition VK_PRESENT_MODE_IMMEDIATE_KHR : VkPresentModeKHR := 0.
Definition VK_PRESENT_MODE_MAILBOX_KHR : VkPresentModeKHR := 1.
Definition VK_PRESENT_MODE_FIFO_KHR : VkPresentModeKHR := 2.
Definition VK_PRESENT_MODE_FIFO_RELAXED_KHR : VkPresentModeKHR := 3.

Definition VK_IMAGE_TILING_OPTIMAL : Z := 0.
Definition VK_FORMAT_FEATURE_DEPTH_STENCIL_ATTACHMENT_BIT : Z := 512.
Definition VK_IMAGE_USAGE_COLOR_ATTACHMENT_BIT : Z := 16.
Definition VK_SHARING_MODE_EXCLUSIVE : Z := 0.
Definition VK_SHARING_MODE_CONCURRENT : Z := 1.
Definition VK_COMPOSITE_ALPHA_OPAQUE_BIT_KHR : Z := 1.
Definition VK_SAMPLE_COUNT_1_BIT : Z := 1.
Definition VK_FENCE_CREATE_SIGNALED_BIT : Z := 1.
Definition VK_PIPELINE_STAGE_COLOR_ATTACHMENT_OUTPUT_BIT : Z := 1024.
Definition VK_SHADER_STAGE_VERTEX_BIT : Z := 1.
Definition VK_SHADER_STAGE_FRAGMENT_BIT : Z := 16.

(** Handles ([VkFence], [VkSemaphore], [VkImage], ...) are opaque
    integers; [VK_NULL_HANDLE] is zero. *)
Definition handle := Z.
Definition VK_NULL_HANDLE : handle := 0.

Record VkExtent2D := { width : Z; height : Z }.

Record VkSurfaceFormatKHR := { format : VkFormat; colorSpace : VkColorSpaceKHR }.

Record VkSurfaceCapabilitiesKHR := {
  minImageCount : Z;
  maxImageCount : Z;
  currentExtent : VkExtent2D;
  minImageExtent : VkExtent2D;
  maxImageExtent : VkExtent2D;
  currentTransform : Z
}.

End Vk.
Import Vk.

(** ** Surface format *)

(** The pair the selector looks for. *)
Definition preferredSurfaceFormat : VkSurfaceFormatKHR :=
  {| format := VK_FORMAT_B8G8R8A8_SRGB; colorSpace := VK_COLOR_SPACE_SRGB_NONLINEAR_KHR |}.

(** The range-for loop of [chooseSwapSurfaceFormat]: the first element
    that passes the test leaves the function. *)
Fixpoint firstPreferred (availableFormats : list VkSurfaceFormatKHR)
  : option VkSurfaceFormatKHR :=
  match availableFormats with
  | [] => None
  | availableFormat :: rest =>
      if (format availableFormat =? VK_FORMAT_B8G8R8A8_SRGB)
         && (colorSpace availableFormat =? VK_COLOR_SPACE_SRGB_NONLINEAR_KHR)
      then Some availableFormat
      else firstPreferred rest
  end.

(** [EngineSwapChain::chooseSwapSurfaceFormat]. After the loop the code
    reads [availableFormats[0]]; [None] is that read out of bounds. *)
Definition chooseSwapSurfaceFormat (availableFormats : list VkSurfaceFormatKHR)
  : option VkSurfaceFormatKHR :=
  match firstPreferred availableFormats with
  | Some availableFormat => Some availableFormat
  | None => availableFormats !! 0%nat
  end.

(** ** Present mode *)

(** The live loop of [chooseSwapPresentMode] (the mailbox loop before it
    is commented out in the source). *)
Fixpoint firstImmediate (availablePresentModes : list VkPresentModeKHR)
  : option VkPresentModeKHR :=
  match availablePresentModes with
  | [] => None
  | availablePresentMode :: rest =>
      if availablePresentMode =? VK_PRESENT_MODE_IMMEDIATE_KHR
      then Some availablePresentMode
      else firstImmediate rest
  end.

(** [EngineSwapChain::chooseSwapPresentMode]: the line written to
    [std::cout] and the mode returned. *)
Definition chooseSwapPresentMode (availablePresentModes : list VkPresentModeKHR)
  : string * VkPresentModeKHR :=
  match firstImmediate availablePresentModes with
  | Some availablePresentMode => ("Present mode: Immediate"%string, availablePresentMode)
  | None => ("Present mode: V-Sync"%string, VK_PRESENT_MODE_FIFO_KHR)
  end.

(** ** Extent *)

(** [EngineSwapChain::chooseSwapExtent], with [std::max] and [std::min] on
    [uint32_t]. *)
Definition chooseSwapExtent (capabilities : VkSurfaceCapabilitiesKHR)
    (windowExtent : VkExtent2D) : VkExtent2D :=
  if negb (width (currentExtent capabilities) =? UINT32_MAX)
  then currentExtent capabilities
  else
    {| width := Z.max (width (minImageExtent capabilities))
                      (Z.min (width (maxImageExtent capabilities)) (width windowExtent));
       height := Z.max (height (minImageExtent capabilities))
                       (Z.min (height (maxImageExtent capabilities)) (height windowExtent)) |}.

(** What "clamped into [lo, hi]" means, said independently of the code:
    a value below the interval goes to [lo], one above it to [hi], one
    inside it stays. *)
Definition clamp (lo hi x : Z) : Z :=
  if x <? lo then lo else if hi <? x then hi else x.

Definition clampExtent (lo hi e : VkExtent2D) : VkExtent2D :=
  {| width := clamp (width lo) (width hi) (width e);
     height := clamp (height lo) (height hi) (height e) |}.

(** Componentwise order on extents. *)
Definition extent_le (a b : VkExtent2D) : Prop :=
  width a ≤ width b ∧ height a ≤ height b.

(** ** Core/Render/Attachment.h *)

Module Attachment_h.

Inductive AttachmentType := COLOR | RESOLVE | DEPTH | DEPTH_STENCIL.

Record AttachmentProperties := {
  type : AttachmentType;
  extent : VkExtent2D;
  format : VkFormat;
  imageCount : Z;
  samples : Z
}.

(** The constructor [AttachmentProperties(AttachmentType type)]: every
    other member is value-initialised. *)
Definition mkProps (t : AttachmentType) : AttachmentProperties :=
  {| type := t; extent := {| width := 0; height := 0 |};
     format := VK_FORMAT_UNDEFINED; imageCount := 0; samples := 0 |}.

Definition isColor (t : AttachmentType) : bool :=
  match t with COLOR | RESOLVE => true | _ => false end.

(** Modelled from the spec: the [Image] class (Core/GPU/Image.h is
    absent). An image of an attachment is either freshly allocated or
    wraps a pre-existing image handle whose memory the presentation
    subsystem owns. *)
Inductive Image :=
| Owned (image : handle)
| Borrowed (image : handle).

Record Attachment := {
  images : list Image;
  props : AttachmentProperties
}.

(** Modelled from the spec: the swapchain constructor of [Attachment]
    (Attachment.cpp is absent; the header only declares it). Constructor
    B wraps each externally owned image handle in a non-owning view: no
    allocation, one entry per handle, in order. *)
Definition swapchainAttachment_ctor (props : AttachmentProperties)
    (swapchainImages : list handle) : Attachment :=
  {| images := Borrowed <$> swapchainImages; props := props |}.

End Attachment_h.

(** ** Structures handed to the driver ([sType] tags left out) *)

Module VkSwapchainCreateInfoKHR.
Record t := {
  surface : handle;
  minImageCount : Z;
  imageFormat : VkFormat;
  imageColorSpace : VkColorSpaceKHR;
  imageExtent : VkExtent2D;
  imageArrayLayers : Z;
  imageUsage : Z;
  imageSharingMode : Z;
  queueFamilyIndexCount : Z;
  pQueueFamilyIndices : list Z;
  preTransform : Z;
  compositeAlpha : Z;
  presentMode : VkPresentModeKHR;
  clipped : bool;
  oldSwapchain : handle
}.
End VkSwapchainCreateInfoKHR.

Module VkSubmitInfo.
Record t := {
  waitSemaphoreCount : Z;
  pWaitSemaphores : list handle;
  pWaitDstStageMask : list Z;
  commandBufferCount : Z;
  pCommandBuffers : list handle;
  signalSemaphoreCount : Z;
  pSignalSemaphores : list handle
}.
End VkSubmitInfo.

Module VkPresentInfoKHR.
Record t := {
  waitSemaphoreCount : Z;
  pWaitSemaphores : list handle;
  swapchainCount : Z;
  pSwapchains : list handle;
  pImageIndices : Z
}.
End VkPresentInfoKHR.

(** ** Calls issued to the outside, in the order the code makes them *)

Inductive Call :=
| vkCreateSwapchainKHR (device : handle) (createInfo : VkSwapchainCreateInfoKHR.t)
| vkGetSwapchainImagesKHR (device swapchain : handle) (count : Z) (countOnly : bool)
| vkCreateSemaphore (device : handle)
| vkCreateFence (device : handle) (flags : Z)
| vkWaitForFences (device : handle) (fences : list handle) (waitAll : bool) (timeout : Z)
| vkAcquireNextImageKHR (device swapchain : handle) (timeout : Z) (semaphore fence : handle)
| vkResetFences (device : handle) (fences : list handle)
| vkQueueSubmit (queue : handle) (submit : VkSubmitInfo.t) (fence : handle)
| vkQueuePresentKHR (queue : handle) (present : VkPresentInfoKHR.t)
| vkCmdPushConstants (commandBuffer layout : handle) (stageFlags offset size : Z)
                     (pValues : list Z)
| cout (line : string).

(** ** The device collaborator and the driver behind it *)

Record QueueFamilyIndices := { graphicsFamily : Z; presentFamily : Z }.

Record SwapChainSupportDetails := {
  capabilities : VkSurfaceCapabilitiesKHR;
  formats : list VkSurfaceFormatKHR;
  presentModes : list VkPresentModeKHR
}.

(** [EngineDevice] (Core/GPU/Device.h is absent) as the code uses it: its
    accessors and queries are fields. The last four fields are the
    driver: the status a call returns and the values it writes through
    its out-pointers are functions of the log up to and including that
    call ([vkOutImageIndex] answers [None] when it leaves the index as
    it was), and the images of a created chain are a list. *)
Record EngineDevice := {
  device : handle;
  surface : handle;
  graphicsQueue : handle;
  presentQueue : handle;
  getSwapChainSupport : SwapChainSupportDetails;
  findPhysicalQueueFamilies : QueueFamilyIndices;
  formatSupported : VkFormat → Z → Z → bool;
  vkStatus : list Call → VkResult;
  vkOutHandle : list Call → handle;
  vkOutImageIndex : list Call → option Z;
  vkSwapchainImages : list handle
}.

(** Modelled from the spec: [EngineDevice::findSupportedFormat]
    (Device.cpp is absent): a query that takes an ordered candidate list
    and the desired tiling and features and picks the first supported
    candidate. [None]: no candidate is supported; the spec does not say
    what the query does then. *)
Fixpoint findSupportedFormat (dev : EngineDevice) (candidates : list VkFormat)
    (tiling features : Z) : option VkFormat :=
  match candidates with
  | [] => None
  | candidate :: rest =>
      if formatSupported dev candidate tiling features
      then Some candidate
      else findSupportedFormat dev rest tiling features
  end.

(** ** Depth format *)

(** The candidate vector of [findDepthFormat] after the conditional
    [push_back]. *)
Definition depthCandidates (stencilRequired : bool) : list VkFormat :=
  let candidates := [VK_FORMAT_D32_SFLOAT_S8_UINT; VK_FORMAT_D24_UNORM_S8_UINT] in
  if negb stencilRequired then candidates ++ [VK_FORMAT_D32_SFLOAT] else candidates.

(** [EngineSwapChain::findDepthFormat]. *)
Definition findDepthFormat (dev : EngineDevice) (stencilRequired : bool) : option VkFormat :=
  findSupportedFormat dev (depthCandidates stencilRequired)
    VK_IMAGE_TILING_OPTIMAL VK_FORMAT_FEATURE_DEPTH_STENCIL_ATTACHMENT_BIT.

(** Whether a depth format carries a stencil component (the [_S8_UINT]
    suffix of its name). *)
Definition hasStencilComponent (f : VkFormat) : bool :=
  (f =? VK_FORMAT_D32_SFLOAT_S8_UINT) || (f =? VK_FORMAT_D24_UNORM_S8_UINT).


(** ** Effects: an object, a log of calls, exceptions and undefined behaviour *)

Record World (O : Type) := mkWorld { this : O; log : list Call }.
Arguments mkWorld {O} _ _.
Arguments this {O} _.
Arguments log {O} _.

(** How a member function ends: it returns [a], it throws
    [std::runtime_error(what)] (the object and the log are as the throw
    left them), or its behaviour is undefined. *)
Inductive result (O A : Type) :=
| Ok (a : A) (w : World O)
| Throw (what : string) (w : World O)
| UB.
Arguments Ok {O A} _ _.
Arguments Throw {O A} _ _.
Arguments UB {O A}.

Definition M (O A : Type) : Type := World O → result O A.

#[global] Instance M_ret {O} : MRet (M O) := λ A a w, Ok a w.

#[global] Instance M_bind {O} : MBind (M O) := λ A B k c w,
  match c w with
  | Ok a w' => k a w'
  | Throw what w' => Throw what w'
  | UB => UB
  end.

Definition throw {O A} (what : string) : M O A := λ w, Throw what w.

Definition undefined {O A} : M O A := λ _, UB.

Definition get_this {O} : M O O := λ w, Ok (this w) w.

Definition modify {O} (f : O → O) : M O () :=
  λ w, Ok () (mkWorld (f (this w)) (log w)).

(** A call whose status the code ignores or that has none. *)
Definition issue {O} (c : Call) : M O () :=
  λ w, Ok () (mkWorld (this w) (log w ++ [c])).

(** A call to the driver: logged, then answered. *)
Definition vk {O} (dev : EngineDevice) (c : Call) : M O VkResult :=
  λ w, let l := log w ++ [c] in Ok (vkStatus dev l) (mkWorld (this w) l).

(** The handle the driver wrote through the out-pointer of the last call. *)
Definition out_handle {O} (dev : EngineDevice) : M O handle :=
  λ w, Ok (vkOutHandle dev (log w)) w.

Definition out_imageIndex {O} (dev : EngineDevice) : M O (option Z) :=
  λ w, Ok (vkOutImageIndex dev (log w)) w.

(** [v[i]] on a [std::vector]: no bounds check. *)
Definition index {O A} (v : list A) (i : Z) : M O A :=
  match v !! Z.to_nat i with
  | Some x => mret x
  | None => undefined
  end.

(** A value whose computation may have been undefined. *)
Definition defined {O A} (o : option A) : M O A :=
  match o with
  | Some x => mret x
  | None => undefined
  end.

(** [for (size_t i = first; ...; i++) body(i)], [n] iterations. *)
Fixpoint for_ {O} (n : nat) (i : Z) (body : Z → M O ()) : M O () :=
  match n with
  | O => mret ()
  | S n' => body i;; for_ n' (i + 1) body
  end.

(** What a function that returns [const T&] hands back: a reference to
    an object that outlives the call, or a reference to a local of the
    callee, whose lifetime ended when the call returned. *)
Inductive reference (A : Type) :=
| to_object (a : A)
| to_local (a : A).
Arguments to_object {A} _.
Arguments to_local {A} _.

(** Reading through a reference, as the copy [T x = f();] does: reading
    a dead object is undefined. *)
Definition read {O A} (r : reference A) : M O A :=
  match r with
  | to_object a => mret a
  | to_local _ => undefined
  end.

(** ** EngineSwapChain *)

(** The members Swapchain.cpp reads and writes (Core/GPU/Swapchain.h is
    absent). [oldSwapchain] is a [shared_ptr] to the previous instance, of
    which only the chain handle is read: [None] is [nullptr]. *)
Record EngineSwapChain := {
  imageFormat : VkFormat;
  depthFormat : VkFormat;
  extent : VkExtent2D;
  swapchainAttachment : option Attachment_h.Attachment;
  swapchain : handle;
  oldSwapchain : option handle;
  imageCount : Z;
  imageAvailableSemaphores : list handle;
  renderFinishedSemaphores : list handle;
  inFlightFences : list handle;
  imagesInFlight : list handle;
  currentFrame : Z
}.

Definition set_imageFormat (v : VkFormat) (s : EngineSwapChain) : EngineSwapChain :=
  {| imageFormat := v; depthFormat := depthFormat s; extent := extent s;
     swapchainAttachment := swapchainAttachment s; swapchain := swapchain s;
     oldSwapchain := oldSwapchain s; imageCount := imageCount s;
     imageAvailableSemaphores := imageAvailableSemaphores s;
     renderFinishedSemaphores := renderFinishedSemaphores s;
     inFlightFences := inFlightFences s; imagesInFlight := imagesInFlight s;
     currentFrame := currentFrame s |}.

Definition set_depthFormat (v : VkFormat) (s : EngineSwapChain) : EngineSwapChain :=
  {| imageFormat := imageFormat s; depthFormat := v; extent := extent s;
     swapchainAttachment := swapchainAttachment s; swapchain := swapchain s;
     oldSwapchain := oldSwapchain s; imageCount := imageCount s;
     imageAvailableSemaphores := imageAvailableSemaphores s;
     renderFinishedSemaphores := renderFinishedSemaphores s;
     inFlightFences := inFlightFences s; imagesInFlight := imagesInFlight s;
     currentFrame := currentFrame s |}.

Definition set_extent (v : VkExtent2D) (s : EngineSwapChain) : EngineSwapChain :=
  {| imageFormat := imageFormat s; depthFormat := depthFormat s; extent := v;
     swapchainAttachment := swapchainAttachment s; swapchain := swapchain s;
     oldSwapchain := oldSwapchain s; imageCount := imageCount s;
     imageAvailableSemaphores := imageAvailableSemaphores s;
     renderFinishedSemaphores := renderFinishedSemaphores s;
     inFlightFences := inFlightFences s; imagesInFlight := imagesInFlight s;
     currentFrame := currentFrame s |}.

Definition set_swapchainAttachment (v : option Attachment_h.Attachment)
    (s : EngineSwapChain) : EngineSwapChain :=
  {| imageFormat := imageFormat s; depthFormat := depthFormat s; extent := extent s;
     swapchainAttachment := v; swapchain := swapchain s;
     oldSwapchain := oldSwapchain s; imageCount := imageCount s;
     imageAvailableSemaphores := imageAvailableSemaphores s;
     renderFinishedSemaphores := renderFinishedSemaphores s;
     inFlightFences := inFlightFences s; imagesInFlight := imagesInFlight s;
     currentFrame := currentFrame s |}.

Definition set_swapchain (v : handle) (s : EngineSwapChain) : EngineSwapChain :=
  {| imageFormat := imageFormat s; depthFormat := depthFormat s; extent := extent s;
     swapchainAttachment := swapchainAttachment s; swapchain := v;
     oldSwapchain := oldSwapchain s; imageCount := imageCount s;
     imageAvailableSemaphores := imageAvailableSemaphores s;
     renderFinishedSemaphores := renderFinishedSemaphores s;
     inFlightFences := inFlightFences s; imagesInFlight := imagesInFlight s;
     currentFrame := currentFrame s |}.

Definition set_oldSwapchain (v : option handle) (s : EngineSwapChain) : EngineSwapChain :=
  {| imageFormat := imageFormat s; depthFormat := depthFormat s; extent := extent s;
     swapchainAttachment := swapchainAttachment s; swapchain := swapchain s;
     oldSwapchain := v; imageCount := imageCount s;
     imageAvailableSemaphores := imageAvailableSemaphores s;
     renderFinishedSemaphores := renderFinishedSemaphores s;
     inFlightFences := inFlightFences s; imagesInFlight := imagesInFlight s;
     currentFrame := currentFrame s |}.

Definition set_imageCount (v : Z) (s : EngineSwapChain) : EngineSwapChain :=
  {| imageFormat := imageFormat s; depthFormat := depthFormat s; extent := extent s;
     swapchainAttachment := swapchainAttachment s; swapchain := swapchain s;
     oldSwapchain := oldSwapchain s; imageCount := v;
     imageAvailableSemaphores := imageAvailableSemaphores s;
     renderFinishedSemaphores := renderFinishedSemaphores s;
     inFlightFences := inFlightFences s; imagesInFlight := imagesInFlight s;
     currentFrame := currentFrame s |}.

Definition set_imageAvailableSemaphores (v : list handle) (s : EngineSwapChain)
  : EngineSwapChain :=
  {| imageFormat := imageFormat s; depthFormat := depthFormat s; extent := extent s;
     swapchainAttachment := swapchainAttachment s; swapchain := swapchain s;
     oldSwapchain := oldSwapchain s; imageCount := imageCount s;
     imageAvailableSemaphores := v;
     renderFinishedSemaphores := renderFinishedSemaphores s;
     inFlightFences := inFlightFences s; imagesInFlight := imagesInFlight s;
     currentFrame := currentFrame s |}.

Definition set_renderFinishedSemaphores (v : list handle) (s : EngineSwapChain)
  : EngineSwapChain :=
  {| imageFormat := imageFormat s; depthFormat := depthFormat s; extent := extent s;
     swapchainAttachment := swapchainAttachment s; swapchain := swapchain s;
     oldSwapchain := oldSwapchain s; imageCount := imageCount s;
     imageAvailableSemaphores := imageAvailableSemaphores s;
     renderFinishedSemaphores := v;
     inFlightFences := inFlightFences s; imagesInFlight := imagesInFlight s;
     currentFrame := currentFrame s |}.

Definition set_inFlightFences (v : list handle) (s : EngineSwapChain) : EngineSwapChain :=
  {| imageFormat := imageFormat s; depthFormat := depthFormat s; extent := extent s;
     swapchainAttachment := swapchainAttachment s; swapchain := swapchain s;
     oldSwapchain := oldSwapchain s; imageCount := imageCount s;
     imageAvailableSemaphores := imageAvailableSemaphores s;
     renderFinishedSemaphores := renderFinishedSemaphores s;
     inFlightFences := v; imagesInFlight := imagesInFlight s;
     currentFrame := currentFrame s |}.

Definition set_imagesInFlight (v : list handle) (s : EngineSwapChain) : EngineSwapChain :=
  {| imageFormat := imageFormat s; depthFormat := depthFormat s; extent := extent s;
     swapchainAttachment := swapchainAttachment s; swapchain := swapchain s;
     oldSwapchain := oldSwapchain s; imageCount := imageCount s;
     imageAvailableSemaphores := imageAvailableSemaphores s;
     renderFinishedSemaphores := renderFinishedSemaphores s;
     inFlightFences := inFlightFences s; imagesInFlight := v;
     currentFrame := currentFrame s |}.

Definition set_currentFrame (v : Z) (s : EngineSwapChain) : EngineSwapChain :=
  {| imageFormat := imageFormat s; depthFormat := depthFormat s; extent := extent s;
     swapchainAttachment := swapchainAttachment s; swapchain := swapchain s;
     oldSwapchain := oldSwapchain s; imageCount := imageCount s;
     imageAvailableSemaphores := imageAvailableSemaphores s;
     renderFinishedSemaphores := renderFinishedSemaphores s;
     inFlightFences := inFlightFences s; imagesInFlight := imagesInFlight s;
     currentFrame := v |}.

(** Modelled from the spec: the default member initialisers of
    Swapchain.h (absent). [currentFrame] starts at 0, the vectors are
    empty and the pointers null; init writes every other member before it
    is read. [previous] is the constructor's [shared_ptr] argument. *)
Definition fresh (previous : option EngineSwapChain) : EngineSwapChain :=
  {| imageFormat := VK_FORMAT_UNDEFINED; depthFormat := VK_FORMAT_UNDEFINED;
     extent := {| width := 0; height := 0 |};
     swapchainAttachment := None; swapchain := VK_NULL_HANDLE;
     oldSwapchain := swapchain <$> previous; imageCount := 0;
     imageAvailableSemaphores := []; renderFinishedSemaphores := [];
     inFlightFences := []; imagesInFlight := [];
     currentFrame := 0 |}.

(** [EngineSwapChain::getAttachmentProperties]: fills in its local
    [props] and returns a reference to it ([return props;] in a function
    that returns [const AttachmentProperties&]). *)
Definition getAttachmentProperties (s : EngineSwapChain)
  : reference Attachment_h.AttachmentProperties :=
  let props := Attachment_h.mkProps Attachment_h.COLOR in
  let props := {| Attachment_h.type := Attachment_h.type props;
                  Attachment_h.extent := extent s;
                  Attachment_h.format := imageFormat s;
                  Attachment_h.imageCount := imageCount s;
                  Attachment_h.samples := VK_SAMPLE_COUNT_1_BIT |} in
  to_local props.

(** [EngineSwapChain::getSwapchainAttachment]: dereferences the
    [unique_ptr]. *)
Definition getSwapchainAttachment : M EngineSwapChain Attachment_h.Attachment :=
  s ← get_this; defined (swapchainAttachment s).

(** Lines 52 to 108 of [EngineSwapChain::init]: the selections, the
    chain and its images. It returns the local [swapImages]. A
    depth-format query that finds nothing ends construction with an
    exception (the spec's fatal construction failure; the text of the
    message is not in the sources at hand). *)
Definition init_swapchain (dev : EngineDevice) (windowExtent : VkExtent2D)
  : M EngineSwapChain (list handle) :=
  let swapChainSupport := getSwapChainSupport dev in
  surfaceFormat ← defined (chooseSwapSurfaceFormat (formats swapChainSupport));
  let said := chooseSwapPresentMode (presentModes swapChainSupport) in
  issue (cout said.1);;
  let presentMode := said.2 in
  modify (set_imageFormat (format surfaceFormat));;
  depth ← match findDepthFormat dev true with
          | Some f => mret f
          | None => throw "failed to find supported format!"
          end;
  modify (set_depthFormat depth);;
  modify (set_extent (chooseSwapExtent (capabilities swapChainSupport) windowExtent));;
  modify (set_imageCount (wrap32 (minImageCount (capabilities swapChainSupport) + 1)));;
  s ← get_this;
  (if (0 <? maxImageCount (capabilities swapChainSupport))
      && (maxImageCount (capabilities swapChainSupport) <? imageCount s)
   then modify (set_imageCount (maxImageCount (capabilities swapChainSupport)))
   else mret ());;
  s ← get_this;
  let indices := findPhysicalQueueFamilies dev in
  let queueFamilyIndices := [graphicsFamily indices; presentFamily indices] in
  let concurrent := negb (graphicsFamily indices =? presentFamily indices) in
  let createInfo :=
    {| VkSwapchainCreateInfoKHR.surface := surface dev;
       VkSwapchainCreateInfoKHR.minImageCount := imageCount s;
       VkSwapchainCreateInfoKHR.imageFormat := imageFormat s;
       VkSwapchainCreateInfoKHR.imageColorSpace := colorSpace surfaceFormat;
       VkSwapchainCreateInfoKHR.imageExtent := extent s;
       VkSwapchainCreateInfoKHR.imageArrayLayers := 1;
       VkSwapchainCreateInfoKHR.imageUsage := VK_IMAGE_USAGE_COLOR_ATTACHMENT_BIT;
       VkSwapchainCreateInfoKHR.imageSharingMode :=
         if concurrent then VK_SHARING_MODE_CONCURRENT else VK_SHARING_MODE_EXCLUSIVE;
       VkSwapchainCreateInfoKHR.queueFamilyIndexCount := if concurrent then 2 else 0;
       VkSwapchainCreateInfoKHR.pQueueFamilyIndices :=
         if concurrent then queueFamilyIndices else [];
       VkSwapchainCreateInfoKHR.preTransform :=
         currentTransform (capabilities swapChainSupport);
       VkSwapchainCreateInfoKHR.compositeAlpha := VK_COMPOSITE_ALPHA_OPAQUE_BIT_KHR;
       VkSwapchainCreateInfoKHR.presentMode := presentMode;
       VkSwapchainCreateInfoKHR.clipped := true;
       VkSwapchainCreateInfoKHR.oldSwapchain :=
         match oldSwapchain s with None => VK_NULL_HANDLE | Some old => old end |} in
  created ← vk dev (vkCreateSwapchainKHR (device dev) createInfo);
  if negb (created =? VK_SUCCESS) then throw "failed to create swap chain!" else
  chain ← out_handle dev;
  modify (set_swapchain chain);;
  (* the count, then the images themselves *)
  s ← get_this;
  issue (vkGetSwapchainImagesKHR (device dev) (swapchain s) (imageCount s) true);;
  modify (set_imageCount (Z.of_nat (length (vkSwapchainImages dev))));;
  s ← get_this;
  let swapImages := replicate (Z.to_nat (imageCount s)) VK_NULL_HANDLE in
  issue (vkGetSwapchainImagesKHR (device dev) (swapchain s) (imageCount s) false);;
  let written := take (Z.to_nat (imageCount s)) (vkSwapchainImages dev) in
  let swapImages := written ++ drop (length written) swapImages in
  modify (set_imageCount (Z.of_nat (length written)));;
  mret swapImages.

(** [EngineSwapChain::init]: lines 52 to 108, then line 109, which
    copies [swapProperties] from the reference that
    [getAttachmentProperties] returns, and line 110, which builds the
    attachment from the copy. *)
Definition init (dev : EngineDevice) (windowExtent : VkExtent2D) : M EngineSwapChain () :=
  swapImages ← init_swapchain dev windowExtent;
  s ← get_this;
  swapProperties ← read (getAttachmentProperties s);
  modify (set_swapchainAttachment
            (Some (Attachment_h.swapchainAttachment_ctor swapProperties swapImages))).

(** [EngineSwapChain::acquireNextImage]; [imageIndex] is the value behind
    the pointer. Returns the status and the value behind the pointer
    afterwards. *)
Definition acquireNextImage (dev : EngineDevice) (imageIndex : Z)
  : M EngineSwapChain (VkResult * Z) :=
  s ← get_this;
  fence ← index (inFlightFences s) (currentFrame s);
  issue (vkWaitForFences (device dev) [fence] true UINT64_MAX);;
  available ← index (imageAvailableSemaphores s) (currentFrame s);
  status ← vk dev (vkAcquireNextImageKHR (device dev) (swapchain s) UINT64_MAX
                     available VK_NULL_HANDLE);
  written ← out_imageIndex dev;
  mret (status, default imageIndex written).

Section Settings.

(** [MAX_FRAMES_IN_FLIGHT] of Core/EngineSettings.h (absent). *)
Variable MAX_FRAMES_IN_FLIGHT : Z.

(** [EngineSwapChain::submitCommandBuffers]; [imageIndex] is the value
    behind the pointer, [buffers] the array behind [buffers]. *)
Definition submitCommandBuffers (dev : EngineDevice) (buffers : list handle)
    (imageIndex : Z) : M EngineSwapChain VkResult :=
  s ← get_this;
  owner ← index (imagesInFlight s) imageIndex;
  (if negb (owner =? VK_NULL_HANDLE)
   then issue (vkWaitForFences (device dev) [owner] true UINT64_MAX)
   else mret ());;
  fence ← index (inFlightFences s) (currentFrame s);
  modify (λ s, set_imagesInFlight (<[Z.to_nat imageIndex := fence]> (imagesInFlight s)) s);;
  s ← get_this;
  available ← index (imageAvailableSemaphores s) (currentFrame s);
  let waitSemaphores := [available] in
  let waitStages := [VK_PIPELINE_STAGE_COLOR_ATTACHMENT_OUTPUT_BIT] in
  finished ← index (renderFinishedSemaphores s) (currentFrame s);
  let signalSemaphores := [finished] in
  let submitInfo :=
    {| VkSubmitInfo.waitSemaphoreCount := 1;
       VkSubmitInfo.pWaitSemaphores := waitSemaphores;
       VkSubmitInfo.pWaitDstStageMask := waitStages;
       VkSubmitInfo.commandBufferCount := 1;
       VkSubmitInfo.pCommandBuffers := buffers;
       VkSubmitInfo.signalSemaphoreCount := 1;
       VkSubmitInfo.pSignalSemaphores := signalSemaphores |} in
  fence ← index (inFlightFences s) (currentFrame s);
  issue (vkResetFences (device dev) [fence]);;
  submitted ← vk dev (vkQueueSubmit (graphicsQueue dev) submitInfo fence);
  if negb (submitted =? VK_SUCCESS)
  then throw "failed to submit draw command buffer!" else
  let presentInfo :=
    {| VkPresentInfoKHR.waitSemaphoreCount := 1;
       VkPresentInfoKHR.pWaitSemaphores := signalSemaphores;
       VkPresentInfoKHR.swapchainCount := 1;
       VkPresentInfoKHR.pSwapchains := [swapchain s];
       VkPresentInfoKHR.pImageIndices := imageIndex |} in
  result ← vk dev (vkQueuePresentKHR (presentQueue dev) presentInfo);
  modify (λ s, set_currentFrame (wrap64 (currentFrame s + 1) `mod` MAX_FRAMES_IN_FLIGHT) s);;
  mret result.

(** The body of the loop of [createSyncObjects]: the three creations are
    joined by [||], so the first failure skips the rest. *)
Definition createSyncObjects_body (dev : EngineDevice) (i : Z) : M EngineSwapChain () :=
  r ← vk dev (vkCreateSemaphore (device dev));
  if negb (r =? VK_SUCCESS)
  then throw "failed to create synchronization objects for a frame" else
  h ← out_handle dev;
  modify (λ s, set_imageAvailableSemaphores
                 (<[Z.to_nat i := h]> (imageAvailableSemaphores s)) s);;
  r ← vk dev (vkCreateSemaphore (device dev));
  if negb (r =? VK_SUCCESS)
  then throw "failed to create synchronization objects for a frame" else
  h ← out_handle dev;
  modify (λ s, set_renderFinishedSemaphores
                 (<[Z.to_nat i := h]> (renderFinishedSemaphores s)) s);;
  r ← vk dev (vkCreateFence (device dev) VK_FENCE_CREATE_SIGNALED_BIT);
  if negb (r =? VK_SUCCESS)
  then throw "failed to create synchronization objects for a frame" else
  h ← out_handle dev;
  modify (λ s, set_inFlightFences (<[Z.to_nat i := h]> (inFlightFences s)) s).

(** [EngineSwapChain::createSyncObjects]. *)
Definition createSyncObjects (dev : EngineDevice) : M EngineSwapChain () :=
  let n := Z.to_nat MAX_FRAMES_IN_FLIGHT in
  modify (λ s, set_imageAvailableSemaphores
                 (resize n VK_NULL_HANDLE (imageAvailableSemaphores s)) s);;
  modify (λ s, set_renderFinishedSemaphores
                 (resize n VK_NULL_HANDLE (renderFinishedSemaphores s)) s);;
  modify (λ s, set_inFlightFences (resize n VK_NULL_HANDLE (inFlightFences s)) s);;
  modify (λ s, set_imagesInFlight
                 (resize (Z.to_nat (imageCount s)) VK_NULL_HANDLE (imagesInFlight s)) s);;
  for_ n 0 (createSyncObjects_body dev).

(** The two constructors; the second takes the previous instance and
    drops it at the end. *)
Definition EngineSwapChain_ctor (dev : EngineDevice) (windowExtent : VkExtent2D)
    (previous : option EngineSwapChain) : M EngineSwapChain () :=
  init dev windowExtent;;
  createSyncObjects dev;;
  match previous with
  | Some _ => modify (set_oldSwapchain None)
  | None => mret ()
  end.

(** Construction on a log [l]: the members start from their default
    initialisers. *)
Definition new_EngineSwapChain (dev : EngineDevice) (windowExtent : VkExtent2D)
    (previous : option EngineSwapChain) (l : list Call) : result EngineSwapChain () :=
  EngineSwapChain_ctor dev windowExtent previous (mkWorld (fresh previous) l).

(** The operations a caller has on a swapchain (the destructor, which
    ends the object, is left out). *)
Inductive Op :=
| AcquireNextImage (imageIndex : Z)
| SubmitCommandBuffers (buffers : list handle) (imageIndex : Z)
| GetSwapchainAttachment
| GetAttachmentProperties.

Definition isSubmit (op : Op) : bool :=
  match op with SubmitCommandBuffers _ _ => true | _ => false end.

(** One operation; the value it returns is dropped. *)
Definition exec (dev : EngineDevice) (op : Op) : M EngineSwapChain () :=
  match op with
  | AcquireNextImage imageIndex => acquireNextImage dev imageIndex;; mret ()
  | SubmitCommandBuffers buffers imageIndex =>
      submitCommandBuffers dev buffers imageIndex;; mret ()
  | GetSwapchainAttachment => getSwapchainAttachment;; mret ()
  | GetAttachmentProperties => s ← get_this; let _ := getAttachmentProperties s in mret ()
  end.

(** [run dev k w w']: a caller's sequence of operations, each of which
    returned or threw (an exception is caught and the object used
    further), takes [w] to [w']; [k] of them were calls of
    [submitCommandBuffers] that returned. *)
Inductive run (dev : EngineDevice) : nat → World EngineSwapChain → World EngineSwapChain → Prop :=
| run_done w : run dev 0 w w
| run_returned op w w' w'' k :
    exec dev op w = Ok () w' →
    run dev k w' w'' →
    run dev (if isSubmit op then S k else k) w w''
| run_threw op what w w' w'' k :
    exec dev op w = Throw what w' →
    run dev k w' w'' →
    run dev k w w''.

End Settings.

(** ** Core/Render/Material.h *)

Module Material_h.

(** [MaterialCreateInfo], without the shading properties and shader paths,
    which the inline member functions never read. *)
Record MaterialCreateInfo := {
  descriptorSetLayouts : list handle;
  samples : Z;
  renderpass : handle;
  pushConstSize : Z
}.

Record Material := {
  materialCreateInfo : MaterialCreateInfo;
  vertexShaderModule : handle;
  fragmentShaderModule : handle;
  pipelineLayout : handle;
  pipeline : handle;
  descriptorSet : option handle
}.

(** What the template parameter [T] of [writePushConstants] must offer:
    [sizeof(T)] and the bytes of an object, which is what the driver reads
    through [(void* )&data]. *)
Class Payload (T : Type) := {
  sizeof : Z;
  bytes : T → list Z
}.
Arguments sizeof T {_}.

Definition getPipelineLayout (m : Material) : handle := pipelineLayout m.

(** [Material::writePushConstants<T>]. *)
Definition writePushConstants {T} `{Payload T} (cmdBuf : handle) (data : T)
  : M Material () :=
  m ← get_this;
  issue (vkCmdPushConstants cmdBuf (pipelineLayout m)
           (Z.lor VK_SHADER_STAGE_VERTEX_BIT VK_SHADER_STAGE_FRAGMENT_BIT) 0
           (sizeof T) (bytes data)).

(** A [float] is its four bytes, least significant first. *)
Definition float := Z.
Definition float_bytes (f : float) : list Z :=
  [Z.land f 255; Z.land (Z.shiftr f 8) 255; Z.land (Z.shiftr f 16) 255;
   Z.land (Z.shiftr f 24) 255].

(** [ShaderPushConstants::MeshPushConstants]: two [glm::mat4], sixteen
    floats each. *)
Record MeshPushConstants := {
  transform : list float;
  normalMatrix : list float
}.

#[global] Instance MeshPushConstants_payload : Payload MeshPushConstants := {|
  sizeof := 128;
  bytes := λ d, (transform d ++ normalMatrix d) ≫= float_bytes
|}.

(** [ShaderPushConstants::DebugPrimitivePushConstants]: a [glm::mat4] and
    a [glm::vec4]. *)
Record DebugPrimitivePushConstants := {
  debug_transform : list float;
  color : list float
}.

#[global] Instance DebugPrimitivePushConstants_payload
  : Payload DebugPrimitivePushConstants := {|
  sizeof := 80;
  bytes := λ d, (debug_transform d ++ color d) ≫= float_bytes
|}.

(** A mesh payload (two identity matrices, as IEEE 754 bit patterns) and
    a material created with a given push-constant size. *)
Definition identity : list float :=
  [1065353216; 0; 0; 0;  0; 1065353216; 0; 0;  0; 0; 1065353216; 0;  0; 0; 0; 1065353216].

Definition demoMesh : MeshPushConstants :=
  {| transform := identity; normalMatrix := identity |}.

Definition demoMaterial (declared : Z) : Material :=
  {| materialCreateInfo :=
       {| descriptorSetLayouts := []; samples := VK_SAMPLE_COUNT_1_BIT;
          renderpass := 20; pushConstSize := declared |};
     vertexShaderModule := 21; fragmentShaderModule := 22;
     pipelineLayout := 23; pipeline := 24; descriptorSet := None |}.

End Material_h.

(** ** Vocabulary of the statements *)

(** [keeps R c]: however [c] ends, the object it leaves is [R]-related to
    the one it found. *)
Definition keeps {O A} (R : relation O) (c : M O A) : Prop :=
  ∀ w, match c w with
       | Ok _ w' | Throw _ w' => R (this w) (this w')
       | UB => True
       end.

(** Two objects with the same [currentFrame]. *)
Definition same_frame (s s' : EngineSwapChain) : Prop := currentFrame s = currentFrame s'.

(** The sync vectors have one entry per frame in flight and the fence
    table one entry per swapchain image: what [createSyncObjects] sets up. *)
Definition sized (N : Z) (s : EngineSwapChain) : Prop :=
  length (imageAvailableSemaphores s) = Z.to_nat N ∧
  length (renderFinishedSemaphores s) = Z.to_nat N ∧
  length (inFlightFences s) = Z.to_nat N ∧
  length (imagesInFlight s) = Z.to_nat (imageCount s).

(** Two objects whose vectors have the same lengths and that count the
    same number of images. *)
Definition same_shape (s s' : EngineSwapChain) : Prop :=
  length (imageAvailableSemaphores s) = length (imageAvailableSemaphores s') ∧
  length (renderFinishedSemaphores s) = length (renderFinishedSemaphores s') ∧
  length (inFlightFences s) = length (inFlightFences s') ∧
  length (imagesInFlight s) = length (imagesInFlight s') ∧
  imageCount s = imageCount s'.

(** A swapchain on which the frame slot indexes the sync vectors. *)
Definition wf (N : Z) (s : EngineSwapChain) : Prop :=
  sized N s ∧ 0 ≤ currentFrame s < N.

(** The [VkSubmitInfo] and [VkPresentInfoKHR] that [submitCommandBuffers]
    fills in, as functions of the handles it reads. *)
Definition submitInfo_of (available finished : handle) (buffers : list handle)
  : VkSubmitInfo.t :=
  {| VkSubmitInfo.waitSemaphoreCount := 1;
     VkSubmitInfo.pWaitSemaphores := [available];
     VkSubmitInfo.pWaitDstStageMask := [VK_PIPELINE_STAGE_COLOR_ATTACHMENT_OUTPUT_BIT];
     VkSubmitInfo.commandBufferCount := 1;
     VkSubmitInfo.pCommandBuffers := buffers;
     VkSubmitInfo.signalSemaphoreCount := 1;
     VkSubmitInfo.pSignalSemaphores := [finished] |}.

Definition presentInfo_of (finished chain : handle) (imageIndex : Z)
  : VkPresentInfoKHR.t :=
  {| VkPresentInfoKHR.waitSemaphoreCount := 1;
     VkPresentInfoKHR.pWaitSemaphores := [finished];
     VkPresentInfoKHR.swapchainCount := 1;
     VkPresentInfoKHR.pSwapchains := [chain];
     VkPresentInfoKHR.pImageIndices := imageIndex |}.

(** The image count as the spec words it: [min(minImageCount + 1,
    maxImageCount)] when a maximum is declared, [minImageCount + 1] when
    it is 0; the sum is a [uint32_t] sum. *)
Definition specImageCount (capabilities : VkSurfaceCapabilitiesKHR) : Z :=
  if 0 <? maxImageCount capabilities
  then Z.min (wrap32 (minImageCount capabilities + 1)) (maxImageCount capabilities)
  else wrap32 (minImageCount capabilities + 1).

(** ** A device to run the code on

    A surface that leaves the extent to the application, asks for at
    least 2 images and declares no maximum; a device that supports the
    24-bit depth and stencil format only; a driver that hands out three
    images, answers [submitStatus] to a queue submission, [presentStatus]
    to a present request and success to everything else. *)

Definition demoSupport : SwapChainSupportDetails :=
  {| capabilities :=
       {| minImageCount := 2; maxImageCount := 0;
          currentExtent := {| width := UINT32_MAX; height := UINT32_MAX |};
          minImageExtent := {| width := 1; height := 1 |};
          maxImageExtent := {| width := 4096; height := 4096 |};
          currentTransform := 1 |};
     formats := [ {| format := VK_FORMAT_B8G8R8A8_UNORM;
                     colorSpace := VK_COLOR_SPACE_SRGB_NONLINEAR_KHR |};
                  preferredSurfaceFormat ];
     presentModes := [VK_PRESENT_MODE_FIFO_KHR; VK_PRESENT_MODE_IMMEDIATE_KHR] |}.

Definition demoDevice (submitStatus presentStatus : VkResult) : EngineDevice :=
  {| device := 1; surface := 2; graphicsQueue := 3; presentQueue := 4;
     getSwapChainSupport := demoSupport;
     findPhysicalQueueFamilies := {| graphicsFamily := 0; presentFamily := 0 |};
     formatSupported := λ f _ _, f =? VK_FORMAT_D24_UNORM_S8_UINT;
     vkStatus := λ l, match last l with
                      | Some (vkQueueSubmit _ _ _) => submitStatus
                      | Some (vkQueuePresentKHR _ _) => presentStatus
                      | _ => VK_SUCCESS
                      end;
     vkOutHandle := λ l, 100 + Z.of_nat (length l);
     vkOutImageIndex := λ l, Some (Z.of_nat (length l) `mod` 3);
     vkSwapchainImages := [11; 12; 13] |}.

Definition demoExtent : VkExtent2D := {| width := 800; height := 600 |}.

(** The same device, except that the depth-only format is the only
    depth format it supports. *)
Definition demoDepthOnlyDevice : EngineDevice :=
  let dev := demoDevice VK_SUCCESS VK_SUCCESS in
  {| device := device dev; surface := surface dev;
     graphicsQueue := graphicsQueue dev; presentQueue := presentQueue dev;
     getSwapChainSupport := getSwapChainSupport dev;
     findPhysicalQueueFamilies := findPhysicalQueueFamilies dev;
     formatSupported := λ f _ _, f =? VK_FORMAT_D32_SFLOAT;
     vkStatus := vkStatus dev; vkOutHandle := vkOutHandle dev;
     vkOutImageIndex := vkOutImageIndex dev;
     vkSwapchainImages := vkSwapchainImages dev |}.

(** Capabilities of a surface that fixes the extent itself. *)
Definition demoFixedCapabilities : VkSurfaceCapabilitiesKHR :=
  {| minImageCount := 2; maxImageCount := 0;
     currentExtent := {| width := 1024; height := 768 |};
     minImageExtent := {| width := 1; height := 1 |};
     maxImageExtent := {| width := 4096; height := 4096 |};
     currentTransform := 1 |}.

(** The world a call leaves, whether it returned or threw. *)
Definition world_after {O A} (r : result O A) (w : World O) : World O :=
  match r with
  | Ok _ w' | Throw _ w' => w'
  | UB => w
  end.

(** A swapchain object with two frames in flight and three images,
    written out member by member: the chain 102, the semaphores and the
    fence of slot 0 and of slot 1, a fence table that owns no image yet,
    and the attachment over the three images. *)
Definition demoSwapChain : EngineSwapChain :=
  {| imageFormat := VK_FORMAT_B8G8R8A8_SRGB;
     depthFormat := VK_FORMAT_D24_UNORM_S8_UINT;
     extent := demoExtent;
     swapchainAttachment :=
       Some (Attachment_h.swapchainAttachment_ctor
               {| Attachment_h.type := Attachment_h.COLOR;
                  Attachment_h.extent := demoExtent;
                  Attachment_h.format := VK_FORMAT_B8G8R8A8_SRGB;
                  Attachment_h.imageCount := 3;
                  Attachment_h.samples := VK_SAMPLE_COUNT_1_BIT |}
               [11; 12; 13]);
     swapchain := 102; oldSwapchain := None; imageCount := 3;
     imageAvailableSemaphores := [105; 108];
     renderFinishedSemaphores := [106; 109];
     inFlightFences := [107; 110];
     imagesInFlight := [VK_NULL_HANDLE; VK_NULL_HANDLE; VK_NULL_HANDLE];
     currentFrame := 0 |}.

(** The demo swapchain before any frame, after a first frame on image 0,
    and after a second frame on image 1. *)
Definition demoWorld0 : World EngineSwapChain := mkWorld demoSwapChain [].

Definition demoWorld1 (submitStatus presentStatus : VkResult) : World EngineSwapChain :=
  world_after
    (submitCommandBuffers 2 (demoDevice submitStatus presentStatus) [7] 0
       demoWorld0)
    demoWorld0.

Definition demoWorld2 (submitStatus presentStatus : VkResult) : World EngineSwapChain :=
  world_after
    (submitCommandBuffers 2 (demoDevice submitStatus presentStatus) [8] 1
       (demoWorld1 submitStatus presentStatus))
    (demoWorld1 submitStatus presentStatus).

(** ** The rest of the object's life *)

(** Calls that release the chain and the synchronization objects. *)
Inductive Destroy :=
| vkDestroySwapchainKHR (device swapchain : handle)
| vkDestroySemaphore (device semaphore : handle)
| vkDestroyFence (device fence : handle).

(** The loop of the destructor, [n] iterations from [i]: the three reads
    are unchecked, [None] is a read out of bounds. *)
Fixpoint destroySyncObjects (dev : EngineDevice) (s : EngineSwapChain) (n : nat) (i : Z)
  : option (list Destroy) :=
  match n with
  | O => Some []
  | S n' =>
      finished ← renderFinishedSemaphores s !! Z.to_nat i;
      available ← imageAvailableSemaphores s !! Z.to_nat i;
      fence ← inFlightFences s !! Z.to_nat i;
      rest ← destroySyncObjects dev s n' (i + 1);
      Some ([vkDestroySemaphore (device dev) finished;
             vkDestroySemaphore (device dev) available;
             vkDestroyFence (device dev) fence] ++ rest)
  end.

(** [EngineSwapChain::~EngineSwapChain]: the members as the body leaves
    them and the calls it issues, for [N = MAX_FRAMES_IN_FLIGHT]. The
    [reset] of the attachment pointer runs the destructor of
    [Attachment], which is not among the sources; here it empties the
    pointer. *)
Definition destroy_EngineSwapChain (N : Z) (dev : EngineDevice) (s : EngineSwapChain)
  : option (EngineSwapChain * list Destroy) :=
  let s := set_swapchainAttachment None s in
  let chain := if negb (swapchain s =? VK_NULL_HANDLE)
               then [vkDestroySwapchainKHR (device dev) (swapchain s)] else [] in
  let s := if negb (swapchain s =? VK_NULL_HANDLE)
           then set_swapchain VK_NULL_HANDLE s else s in
  sync ← destroySyncObjects dev s (Z.to_nat N) 0;
  Some (s, chain ++ sync).

(** [Material::setMaterialSpecificDescriptorSet] and
    [Material::getMaterialSpecificDescriptorSet]: the [shared_ptr] member
    is the handle it points to, [None] for [nullptr]; the getter hands out
    the raw pointer. *)
Definition setMaterialSpecificDescriptorSet (set : option handle)
  : M Material_h.Material () :=
  modify (λ m,
    {| Material_h.materialCreateInfo := Material_h.materialCreateInfo m;
       Material_h.vertexShaderModule := Material_h.vertexShaderModule m;
       Material_h.fragmentShaderModule := Material_h.fragmentShaderModule m;
       Material_h.pipelineLayout := Material_h.pipelineLayout m;
       Material_h.pipeline := Material_h.pipeline m;
       Material_h.descriptorSet := set |}).

Definition getMaterialSpecificDescriptorSet : M Material_h.Material (option handle) :=
  m ← get_this; mret (Material_h.descriptorSet m).

(** ** More vocabulary *)

(** The [VkSwapchainCreateInfoKHR] that [init] fills in, as a function of
    the selections it made and of the object. *)
Definition createInfo_of (dev : EngineDevice) (surfaceFormat : VkSurfaceFormatKHR)
    (presentMode : VkPresentModeKHR) (s : EngineSwapChain) : VkSwapchainCreateInfoKHR.t :=
  let indices := findPhysicalQueueFamilies dev in
  let concurrent := negb (graphicsFamily indices =? presentFamily indices) in
  {| VkSwapchainCreateInfoKHR.surface := surface dev;
     VkSwapchainCreateInfoKHR.minImageCount := imageCount s;
     VkSwapchainCreateInfoKHR.imageFormat := imageFormat s;
     VkSwapchainCreateInfoKHR.imageColorSpace := colorSpace surfaceFormat;
     VkSwapchainCreateInfoKHR.imageExtent := extent s;
     VkSwapchainCreateInfoKHR.imageArrayLayers := 1;
     VkSwapchainCreateInfoKHR.imageUsage := VK_IMAGE_USAGE_COLOR_ATTACHMENT_BIT;
     VkSwapchainCreateInfoKHR.imageSharingMode :=
       if concurrent then VK_SHARING_MODE_CONCURRENT else VK_SHARING_MODE_EXCLUSIVE;
     VkSwapchainCreateInfoKHR.queueFamilyIndexCount := if concurrent then 2 else 0;
     VkSwapchainCreateInfoKHR.pQueueFamilyIndices :=
       if concurrent then [graphicsFamily indices; presentFamily indices] else [];
     VkSwapchainCreateInfoKHR.preTransform :=
       currentTransform (capabilities (getSwapChainSupport dev));
     VkSwapchainCreateInfoKHR.compositeAlpha := VK_COMPOSITE_ALPHA_OPAQUE_BIT_KHR;
     VkSwapchainCreateInfoKHR.presentMode := presentMode;
     VkSwapchainCreateInfoKHR.clipped := true;
     VkSwapchainCreateInfoKHR.oldSwapchain :=
       match oldSwapchain s with None => VK_NULL_HANDLE | Some old => old end |}.

(** The object [init] has built up when it asks for the chain. *)
Definition selected (dev : EngineDevice) (windowExtent : VkExtent2D)
    (surfaceFormat : VkSurfaceFormatKHR) (depth : VkFormat) (s : EngineSwapChain)
  : EngineSwapChain :=
  set_imageCount (specImageCount (capabilities (getSwapChainSupport dev)))
    (set_extent (chooseSwapExtent (capabilities (getSwapChainSupport dev)) windowExtent)
       (set_depthFormat depth (set_imageFormat (format surfaceFormat) s))).

(** The creation calls of one iteration of [createSyncObjects], and of
    [n] of them. *)
Definition syncCreates1 (dev : EngineDevice) : list Call :=
  [vkCreateSemaphore (device dev); vkCreateSemaphore (device dev);
   vkCreateFence (device dev) VK_FENCE_CREATE_SIGNALED_BIT].

Definition syncCreates (dev : EngineDevice) (n : nat) : list Call :=
  mjoin (replicate n (syncCreates1 dev)).

(** Every entry of the fence table is null or one of the slots' fences. *)
Definition table_aliases (s : EngineSwapChain) : Prop :=
  ∀ f : handle, f ∈ imagesInFlight s → f = VK_NULL_HANDLE ∨ f ∈ inFlightFences s.

(** Two objects that differ at most in the fence table and the frame
    slot. *)
Definition same_resources (s s' : EngineSwapChain) : Prop :=
  imageFormat s = imageFormat s' ∧ depthFormat s = depthFormat s' ∧
  extent s = extent s' ∧ swapchainAttachment s = swapchainAttachment s' ∧
  swapchain s = swapchain s' ∧ oldSwapchain s = oldSwapchain s' ∧
  imageCount s = imageCount s' ∧
  imageAvailableSemaphores s = imageAvailableSemaphores s' ∧
  renderFinishedSemaphores s = renderFinishedSemaphores s' ∧
  inFlightFences s = inFlightFences s'.

(** Two objects that differ at most in the semaphore and fence vectors. *)
Definition same_chain (s s' : EngineSwapChain) : Prop :=
  imageFormat s = imageFormat s' ∧ depthFormat s = depthFormat s' ∧
  extent s = extent s' ∧ swapchainAttachment s = swapchainAttachment s' ∧
  swapchain s = swapchain s' ∧ oldSwapchain s = oldSwapchain s' ∧
  imageCount s = imageCount s' ∧ imagesInFlight s = imagesInFlight s' ∧
  currentFrame s = currentFrame s'.

(** Two objects with the same formats, extent, chain, images and
    attachment. *)
Definition same_surface (s s' : EngineSwapChain) : Prop :=
  imageFormat s = imageFormat s' ∧ depthFormat s = depthFormat s' ∧
  extent s = extent s' ∧ swapchainAttachment s = swapchainAttachment s' ∧
  swapchain s = swapchain s' ∧ imageCount s = imageCount s'.

(** [dev] with a driver that loses the device on the calls [fails]
    picks out. *)
Definition withFailing (dev : EngineDevice) (fails : Call → bool) : EngineDevice :=
  {| device := device dev; surface := surface dev;
     graphicsQueue := graphicsQueue dev; presentQueue := presentQueue dev;
     getSwapChainSupport := getSwapChainSupport dev;
     findPhysicalQueueFamilies := findPhysicalQueueFamilies dev;
     formatSupported := formatSupported dev;
     vkStatus := λ l, match last l with
                      | Some c => if fails c then VK_ERROR_DEVICE_LOST else vkStatus dev l
                      | None => vkStatus dev l
                      end;
     vkOutHandle := vkOutHandle dev;
     vkOutImageIndex := vkOutImageIndex dev;
     vkSwapchainImages := vkSwapchainImages dev |}.

Definition isCreateSwapchain (c : Call) : bool :=
  match c with vkCreateSwapchainKHR _ _ => true | _ => false end.

(** The handles a list of destroy calls releases. *)
Definition destroyedFences (calls : list Destroy) : list handle :=
  omap (λ c, match c with vkDestroyFence _ f => Some f | _ => None end) calls.

Definition destroyedSemaphores (calls : list Destroy) : list handle :=
  omap (λ c, match c with vkDestroySemaphore _ f => Some f | _ => None end) calls.

Definition destroyedChains (calls : list Destroy) : list handle :=
  omap (λ c, match c with vkDestroySwapchainKHR _ f => Some f | _ => None end) calls.

(** * Properties *)

(** ** Selection policy *)

#[global] Instance VkExtent2D_eq_dec : EqDecision VkExtent2D.
Proof. solve_decision. Defined.

#[global] Instance VkSurfaceFormatKHR_eq_dec : EqDecision VkSurfaceFormatKHR.
Proof. solve_decision. Defined.

Lemma isPreferred_true (f : VkSurfaceFormatKHR) :
  (format f =? VK_FORMAT_B8G8R8A8_SRGB)
  && (colorSpace f =? VK_COLOR_SPACE_SRGB_NONLINEAR_KHR) = true
  ↔ f = preferredSurfaceFormat.
Proof.
  destruct f as [fmt cs]; unfold preferredSurfaceFormat; simpl.
  rewrite andb_true_iff, !Z.eqb_eq. split.
  - intros [-> ->]. reflexivity.
  - intros [= -> ->]. done.
Qed.

Lemma firstPreferred_elem (l : list VkSurfaceFormatKHR) :
  preferredSurfaceFormat ∈ l → firstPreferred l = Some preferredSurfaceFormat.
Proof.
  induction l as [|f l IH]; intros Hin.
  - by apply elem_of_nil in Hin.
  - simpl. destruct (_ && _) eqn:E.
    + apply isPreferred_true in E. by subst.
    + apply elem_of_cons in Hin as [<- | Hin]; [|by apply IH].
      assert (preferredSurfaceFormat = preferredSurfaceFormat) as H by done.
      apply isPreferred_true in H. congruence.
Qed.

Lemma firstPreferred_not_elem (l : list VkSurfaceFormatKHR) :
  preferredSurfaceFormat ∉ l → firstPreferred l = None.
Proof.
  induction l as [|f l IH]; intros Hnin; [done|].
  apply not_elem_of_cons in Hnin as [Hne Hnin]. simpl.
  destruct (_ && _) eqn:E; [|by apply IH].
  apply isPreferred_true in E. congruence.
Qed.

Lemma firstPreferred_Some (l : list VkSurfaceFormatKHR) (f : VkSurfaceFormatKHR) :
  firstPreferred l = Some f → f ∈ l.
Proof.
  induction l as [|g l IH]; [done|]. simpl.
  destruct (_ && _); [intros [= ->]; left | intros H; right; by apply IH].
Qed.

(** C3. A list that holds the preferred format and colour-space pair, at
    whatever position, yields exactly that pair; a list that does not
    hold it yields its first element (the read of [availableFormats[0]]). *)
Theorem chooseSwapSurfaceFormat_preferred_else_first
    (availableFormats : list VkSurfaceFormatKHR) :
  (preferredSurfaceFormat ∈ availableFormats →
     chooseSwapSurfaceFormat availableFormats = Some preferredSurfaceFormat) ∧
  (preferredSurfaceFormat ∉ availableFormats →
     chooseSwapSurfaceFormat availableFormats = head availableFormats).
Proof.
  unfold chooseSwapSurfaceFormat. split; intros H.
  - by rewrite (firstPreferred_elem _ H).
  - rewrite (firstPreferred_not_elem _ H). by destruct availableFormats.
Qed.

(** C9. On a non-empty list the selector returns, and what it returns is
    an element of the list; it fails to return exactly on the empty list,
    where the read of the first element is out of bounds. *)
Theorem chooseSwapSurfaceFormat_defined_iff_nonempty
    (availableFormats : list VkSurfaceFormatKHR) :
  (availableFormats ≠ [] →
     ∃ f, chooseSwapSurfaceFormat availableFormats = Some f ∧ f ∈ availableFormats) ∧
  (chooseSwapSurfaceFormat availableFormats = None ↔ availableFormats = []).
Proof.
  unfold chooseSwapSurfaceFormat. split.
  - intros Hne. destruct (firstPreferred availableFormats) as [f|] eqn:E.
    + exists f. split; [done|]. by apply firstPreferred_Some.
    + destruct availableFormats as [|g l]; [done|].
      exists g. split; [done|]. left.
  - split.
    + destruct (firstPreferred availableFormats) eqn:E; [done|].
      by destruct availableFormats.
    + by intros ->.
Qed.

Lemma firstImmediate_elem (l : list VkPresentModeKHR) :
  VK_PRESENT_MODE_IMMEDIATE_KHR ∈ l → firstImmediate l = Some VK_PRESENT_MODE_IMMEDIATE_KHR.
Proof.
  induction l as [|m l IH]; intros Hin.
  - by apply elem_of_nil in Hin.
  - simpl. destruct (m =? _) eqn:E.
    + apply Z.eqb_eq in E. by subst.
    + apply elem_of_cons in Hin as [<- | Hin]; [|by apply IH].
      by rewrite Z.eqb_refl in E.
Qed.

Lemma firstImmediate_not_elem (l : list VkPresentModeKHR) :
  VK_PRESENT_MODE_IMMEDIATE_KHR ∉ l → firstImmediate l = None.
Proof.
  induction l as [|m l IH]; intros Hnin; [done|].
  apply not_elem_of_cons in Hnin as [Hne Hnin]. simpl.
  destruct (m =? _) eqn:E; [|by apply IH].
  apply Z.eqb_eq in E. congruence.
Qed.

(** C4. With the immediate mode among the available present modes the
    selector returns immediate; without it, FIFO, also for the empty
    list and for a list that offers FIFO alone. *)
Theorem chooseSwapPresentMode_immediate_else_fifo
    (availablePresentModes : list VkPresentModeKHR) :
  (VK_PRESENT_MODE_IMMEDIATE_KHR ∈ availablePresentModes →
     (chooseSwapPresentMode availablePresentModes).2 = VK_PRESENT_MODE_IMMEDIATE_KHR) ∧
  (VK_PRESENT_MODE_IMMEDIATE_KHR ∉ availablePresentModes →
     (chooseSwapPresentMode availablePresentModes).2 = VK_PRESENT_MODE_FIFO_KHR) ∧
  (chooseSwapPresentMode []).2 = VK_PRESENT_MODE_FIFO_KHR ∧
  (chooseSwapPresentMode [VK_PRESENT_MODE_FIFO_KHR]).2 = VK_PRESENT_MODE_FIFO_KHR.
Proof.
  unfold chooseSwapPresentMode. split; [|split; [|done]]; intros H.
  - by rewrite (firstImmediate_elem _ H).
  - by rewrite (firstImmediate_not_elem _ H).
Qed.

Lemma max_min_clamp (lo hi x : Z) : lo ≤ hi → Z.max lo (Z.min hi x) = clamp lo hi x.
Proof. unfold clamp. intros. repeat case_match; lia. Qed.

Lemma clamp_bounds (lo hi x : Z) : lo ≤ hi → lo ≤ clamp lo hi x ≤ hi.
Proof. unfold clamp. intros. repeat case_match; lia. Qed.

(** C5. When the surface reports the sentinel width [UINT32_MAX], the
    result is the window extent clamped, width and height each, into
    the interval from [minImageExtent] to [maxImageExtent], and so lies in
    it; when the surface reports a defined extent the result is that extent,
    whatever the window extent. *)
Theorem chooseSwapExtent_clamped_or_current
    (capabilities : VkSurfaceCapabilitiesKHR) (windowExtent : VkExtent2D) :
  (width (currentExtent capabilities) = UINT32_MAX →
   extent_le (minImageExtent capabilities) (maxImageExtent capabilities) →
     chooseSwapExtent capabilities windowExtent
       = clampExtent (minImageExtent capabilities) (maxImageExtent capabilities) windowExtent
     ∧ extent_le (minImageExtent capabilities) (chooseSwapExtent capabilities windowExtent)
     ∧ extent_le (chooseSwapExtent capabilities windowExtent) (maxImageExtent capabilities)) ∧
  (width (currentExtent capabilities) ≠ UINT32_MAX →
     chooseSwapExtent capabilities windowExtent = currentExtent capabilities).
Proof.
  unfold chooseSwapExtent. split.
  - intros -> [Hw Hh]. rewrite Z.eqb_refl. simpl.
    unfold clampExtent, extent_le. simpl.
    rewrite !max_min_clamp by done.
    pose proof (clamp_bounds _ _ (width windowExtent) Hw).
    pose proof (clamp_bounds _ _ (height windowExtent) Hh).
    repeat split; lia.
  - intros Hne. apply Z.eqb_neq in Hne. by rewrite Hne.
Qed.

(** ** Depth format *)

Lemma findSupportedFormat_Some (dev : EngineDevice) (candidates : list VkFormat)
    (tiling features : Z) (chosen : VkFormat) :
  findSupportedFormat dev candidates tiling features = Some chosen →
  ∃ i : nat,
    candidates !! i = Some chosen ∧
    formatSupported dev chosen tiling features = true ∧
    ∀ (j : nat) (f : VkFormat), (j < i)%nat → candidates !! j = Some f →
      formatSupported dev f tiling features = false.
Proof.
  induction candidates as [|c rest IH]; [done|]. simpl.
  destruct (formatSupported dev c tiling features) eqn:E.
  - intros [= ->]. exists 0%nat. repeat split; [done|]. intros j f Hj. lia.
  - intros H. destruct (IH H) as (i & Hi & Hs & Hbefore).
    exists (S i). repeat split; [done..|].
    intros [|j] f Hj; simpl.
    + by intros [= <-].
    + apply Hbefore. lia.
Qed.

Lemma findSupportedFormat_first (dev : EngineDevice) (candidates : list VkFormat)
    (tiling features : Z) (i : nat) (chosen : VkFormat) :
  candidates !! i = Some chosen →
  formatSupported dev chosen tiling features = true →
  (∀ (j : nat) (f : VkFormat), (j < i)%nat → candidates !! j = Some f →
     formatSupported dev f tiling features = false) →
  findSupportedFormat dev candidates tiling features = Some chosen.
Proof.
  revert i. induction candidates as [|c rest IH]; intros i Hi Hs Hbefore; [done|].
  simpl. destruct i as [|i].
  - injection Hi as ->. by rewrite Hs.
  - rewrite (Hbefore 0%nat c); [|lia|done].
    apply (IH i); [done..|]. intros j f Hj Hf. apply (Hbefore (S j)); [lia|done].
Qed.

Lemma findSupportedFormat_None (dev : EngineDevice) (candidates : list VkFormat)
    (tiling features : Z) :
  findSupportedFormat dev candidates tiling features = None
  ↔ ∀ f, f ∈ candidates → formatSupported dev f tiling features = false.
Proof.
  induction candidates as [|c rest IH]; simpl.
  - split; [|done]. intros _ f Hin. by apply elem_of_nil in Hin.
  - destruct (formatSupported dev c tiling features) eqn:E.
    + split; [done|]. intros H. specialize (H c (list_elem_of_here _ _)). congruence.
    + rewrite IH. split.
      * intros H f Hin. apply elem_of_cons in Hin as [->|Hin]; [done|by apply H].
      * intros H f Hin. apply H. by right.
Qed.

(** C6. The stencil flag fixes the ordered candidate list: the two
    formats with a stencil component, 32-bit depth first, and after
    them, only when no stencil is required, the depth-only format. The
    format chosen is the first candidate of that list that the device
    supports for optimal tiling as a depth and stencil attachment: it is
    supported and no candidate before it is, and nothing is chosen
    exactly when no candidate is supported. With a stencil required only
    stencil formats are chosen. No candidate without a stencil component
    stands before one with a stencil component, which is why, without a
    stencil required, choosing a stencil format never passes over a
    supported candidate without one: the depth-only format is chosen
    exactly when it is supported and neither stencil format is. *)
Theorem findDepthFormat_first_supported_candidate
    (dev : EngineDevice) (stencilRequired : bool) :
  let supported f := formatSupported dev f VK_IMAGE_TILING_OPTIMAL
                       VK_FORMAT_FEATURE_DEPTH_STENCIL_ATTACHMENT_BIT in
  let candidates :=
    if stencilRequired
    then [VK_FORMAT_D32_SFLOAT_S8_UINT; VK_FORMAT_D24_UNORM_S8_UINT]
    else [VK_FORMAT_D32_SFLOAT_S8_UINT; VK_FORMAT_D24_UNORM_S8_UINT;
          VK_FORMAT_D32_SFLOAT] in
  (∀ chosen,
     findDepthFormat dev stencilRequired = Some chosen
     ↔ ∃ i : nat,
         candidates !! i = Some chosen ∧ supported chosen = true ∧
         ∀ (j : nat) (f : VkFormat), (j < i)%nat → candidates !! j = Some f →
           supported f = false) ∧
  (findDepthFormat dev stencilRequired = None
   ↔ ∀ f, f ∈ candidates → supported f = false) ∧
  (stencilRequired = true →
     ∀ chosen, findDepthFormat dev stencilRequired = Some chosen →
       hasStencilComponent chosen = true) ∧
  (∀ (i j : nat) (f g : VkFormat),
     candidates !! i = Some f → candidates !! j = Some g →
     hasStencilComponent f = false → hasStencilComponent g = true → (j < i)%nat) ∧
  (stencilRequired = false →
     (findDepthFormat dev stencilRequired = Some VK_FORMAT_D32_SFLOAT
      ↔ supported VK_FORMAT_D32_SFLOAT = true ∧
        supported VK_FORMAT_D32_SFLOAT_S8_UINT = false ∧
        supported VK_FORMAT_D24_UNORM_S8_UINT = false)).
Proof.
  intros supported candidates.
  assert (findDepthFormat dev stencilRequired
          = findSupportedFormat dev candidates VK_IMAGE_TILING_OPTIMAL
              VK_FORMAT_FEATURE_DEPTH_STENCIL_ATTACHMENT_BIT) as Hcode
    by (by destruct stencilRequired).
  split; [|split; [|split; [|split]]].
  - intros chosen. rewrite Hcode. split.
    + apply findSupportedFormat_Some.
    + intros (i & Hi & Hs & Hbefore). by apply (findSupportedFormat_first _ _ _ _ i).
  - rewrite Hcode. apply findSupportedFormat_None.
  - intros -> chosen H. rewrite Hcode in H.
    apply findSupportedFormat_Some in H as (i & Hi & _).
    destruct i as [|[|i]]; simpl in Hi; by simplify_eq.
  - intros i j f g Hi Hj Hf Hg. subst candidates.
    destruct stencilRequired, i as [|[|[|i]]], j as [|[|[|j]]]; simpl in *;
      simplify_eq; done || lia.
  - intros ->. rewrite Hcode. subst candidates. simpl. fold (supported VK_FORMAT_D32_SFLOAT_S8_UINT)
      (supported VK_FORMAT_D24_UNORM_S8_UINT) (supported VK_FORMAT_D32_SFLOAT).
    destruct (supported VK_FORMAT_D32_SFLOAT_S8_UINT),
      (supported VK_FORMAT_D24_UNORM_S8_UINT), (supported VK_FORMAT_D32_SFLOAT);
      split; (intros (? & ? & ?) || intros ?); try done.
Qed.

(** ** Reasoning about member functions *)

Lemma bind_Ok {O A B} (c : M O A) (k : A → M O B) (w w' : World O) (a : A) :
  c w = Ok a w' → (c ≫= k) w = k a w'.
Proof. unfold mbind, M_bind. by intros ->. Qed.

Lemma bind_Throw {O A B} (c : M O A) (k : A → M O B) (w w' : World O) (what : string) :
  c w = Throw what w' → (c ≫= k) w = Throw what w'.
Proof. unfold mbind, M_bind. by intros ->. Qed.

Lemma bind_Ok_inv {O A B} (c : M O A) (k : A → M O B) (w w'' : World O) (b : B) :
  (c ≫= k) w = Ok b w'' → ∃ a w', c w = Ok a w' ∧ k a w' = Ok b w''.
Proof. unfold mbind, M_bind. destruct (c w) as [a w'| |]; [eauto|done..]. Qed.

Lemma bind_Throw_inv {O A B} (c : M O A) (k : A → M O B) (w w'' : World O)
    (what : string) :
  (c ≫= k) w = Throw what w'' →
  c w = Throw what w'' ∨ ∃ a w', c w = Ok a w' ∧ k a w' = Throw what w''.
Proof.
  unfold mbind, M_bind. destruct (c w) as [a w'| |]; [eauto| |done].
  intros [= -> ->]. by left.
Qed.

Section Keeps.
Context {O : Type} (R : relation O) `{!PreOrder R}.

Lemma keeps_ret {A} (a : A) : keeps R (mret a : M O A).
Proof. intros w. simpl. reflexivity. Qed.

Lemma keeps_bind {A B} (c : M O A) (k : A → M O B) :
  keeps R c → (∀ a, keeps R (k a)) → keeps R (c ≫= k).
Proof.
  intros Hc Hk w. specialize (Hc w). unfold mbind, M_bind.
  destruct (c w) as [a w'| |]; [|done..].
  specialize (Hk a w'). destruct (k a w'); [| |done]; by etrans.
Qed.

Lemma keeps_throw {A} (what : string) : keeps R (throw what : M O A).
Proof. intros w. simpl. reflexivity. Qed.

Lemma keeps_undefined {A} : keeps R (undefined : M O A).
Proof. by intros w. Qed.

Lemma keeps_get_this : keeps R (get_this : M O O).
Proof. intros w. simpl. reflexivity. Qed.

Lemma keeps_issue (c : Call) : keeps R (issue c : M O ()).
Proof. intros w. simpl. reflexivity. Qed.

Lemma keeps_vk (dev : EngineDevice) (c : Call) : keeps R (vk dev c : M O VkResult).
Proof. intros w. simpl. reflexivity. Qed.

Lemma keeps_out_handle (dev : EngineDevice) : keeps R (out_handle dev : M O handle).
Proof. intros w. simpl. reflexivity. Qed.

Lemma keeps_out_imageIndex (dev : EngineDevice) :
  keeps R (out_imageIndex dev : M O (option Z)).
Proof. intros w. simpl. reflexivity. Qed.

Lemma keeps_index {A} (v : list A) (i : Z) : keeps R (index v i : M O A).
Proof. unfold index. destruct (v !! _); [apply keeps_ret | apply keeps_undefined]. Qed.

Lemma keeps_defined {A} (o : option A) : keeps R (defined o : M O A).
Proof. destruct o; [apply keeps_ret | apply keeps_undefined]. Qed.

Lemma keeps_read {A} (r : reference A) : keeps R (read r : M O A).
Proof. destruct r; [apply keeps_ret | apply keeps_undefined]. Qed.

Lemma keeps_modify (f : O → O) : (∀ s, R s (f s)) → keeps R (modify f).
Proof. intros Hf w. simpl. apply Hf. Qed.

Lemma keeps_for (n : nat) (i : Z) (body : Z → M O ()) :
  (∀ j, keeps R (body j)) → keeps R (for_ n i body).
Proof.
  intros Hbody. revert i. induction n as [|n IH]; intros i; simpl.
  - apply keeps_ret.
  - apply keeps_bind; [apply Hbody | intros _; apply IH].
Qed.

End Keeps.

Ltac keeps_step :=
  lazymatch goal with
  | |- keeps _ (_ ≫= _) => apply keeps_bind; [try apply _ | | intros ?]
  | |- keeps _ (mret _) => apply keeps_ret; try apply _
  | |- keeps _ (throw _) => apply keeps_throw; try apply _
  | |- keeps _ undefined => apply keeps_undefined
  | |- keeps _ get_this => apply keeps_get_this; try apply _
  | |- keeps _ (issue _) => apply keeps_issue; try apply _
  | |- keeps _ (vk _ _) => apply keeps_vk; try apply _
  | |- keeps _ (out_handle _) => apply keeps_out_handle; try apply _
  | |- keeps _ (out_imageIndex _) => apply keeps_out_imageIndex; try apply _
  | |- keeps _ (index _ _) => apply keeps_index; try apply _
  | |- keeps _ (defined _) => apply keeps_defined; try apply _
  | |- keeps _ (read _) => apply keeps_read; try apply _
  | |- keeps _ (modify _) => apply keeps_modify; intros ?
  | |- keeps _ (for_ _ _ _) => apply keeps_for; [try apply _ | intros ?]
  | |- keeps _ (if ?b then _ else _) => destruct b
  | |- keeps _ (match ?o with _ => _ end) => destruct o
  end.

Ltac keeps_tac := cbv zeta; repeat keeps_step.

(** ** The frame slot *)

#[global] Instance same_frame_preorder : PreOrder same_frame.
Proof. split; unfold same_frame; [intros s; done | intros s1 s2 s3; congruence]. Qed.

Lemma init_keeps_frame (dev : EngineDevice) (windowExtent : VkExtent2D) :
  keeps same_frame (init dev windowExtent).
Proof. unfold init, init_swapchain. keeps_tac; done. Qed.

Lemma acquireNextImage_keeps_object (dev : EngineDevice) (imageIndex : Z) :
  keeps eq (acquireNextImage dev imageIndex).
Proof. unfold acquireNextImage. keeps_tac. Qed.

Lemma getSwapchainAttachment_keeps_object : keeps eq getSwapchainAttachment.
Proof. unfold getSwapchainAttachment. keeps_tac. Qed.

Lemma createSyncObjects_keeps_frame (N : Z) (dev : EngineDevice) :
  keeps same_frame (createSyncObjects N dev).
Proof. unfold createSyncObjects, createSyncObjects_body. keeps_tac; done. Qed.

#[global] Instance same_shape_preorder : PreOrder same_shape.
Proof.
  split; unfold same_shape.
  - intros s; done.
  - intros s1 s2 s3 (?&?&?&?&?) (?&?&?&?&?). repeat split; congruence.
Qed.

Lemma sized_same_shape (N : Z) (s s' : EngineSwapChain) :
  sized N s → same_shape s s' → sized N s'.
Proof.
  unfold sized, same_shape. intros (?&?&?&?) (?&?&?&?&?). repeat split; congruence.
Qed.

Ltac shape_tac := unfold same_shape; simpl; rewrite ?length_insert; done.

Lemma exec_keeps_frame (N : Z) (dev : EngineDevice) (op : Op) :
  isSubmit op = false → keeps same_frame (exec N dev op).
Proof.
  destruct op; [|done| |]; intros _; unfold exec, acquireNextImage, getSwapchainAttachment.
  all: keeps_tac; done.
Qed.

Lemma exec_keeps_shape (N : Z) (dev : EngineDevice) (op : Op) :
  keeps same_shape (exec N dev op).
Proof.
  destruct op; unfold exec, acquireNextImage, submitCommandBuffers, getSwapchainAttachment.
  all: keeps_tac; try done; shape_tac.
Qed.

Lemma body_keeps_shape (dev : EngineDevice) (i : Z) :
  keeps same_shape (createSyncObjects_body dev i).
Proof. unfold createSyncObjects_body. keeps_tac; try done; shape_tac. Qed.

(** Whether the loop of [createSyncObjects] completes or throws, the
    vectors have been resized. *)
Lemma createSyncObjects_sized (N : Z) (dev : EngineDevice) (w : World EngineSwapChain) :
  match createSyncObjects N dev w with
  | Ok _ w' | Throw _ w' => sized N (this w')
  | UB => True
  end.
Proof.
  destruct w as [s l]. unfold createSyncObjects. cbv zeta.
  unfold mbind, M_bind, modify. cbn [this log].
  match goal with
  | |- context [for_ ?n ?i ?body ?w0] =>
      pose proof (keeps_for same_shape n i body (body_keeps_shape dev) w0) as Hk;
      assert (sized N (this w0)) as Hs
  end.
  { unfold sized. simpl. rewrite !length_resize. done. }
  destruct (for_ _ _ _ _); [| |done]; eapply sized_same_shape; done.
Qed.

(** ** What one call of [submitCommandBuffers] does *)

(** The call on an object whose four reads are in bounds, step by step:
    the calls it logs, the table it leaves and how it ends. *)
Lemma submitCommandBuffers_steps (N : Z) (dev : EngineDevice) (buffers : list handle)
    (imageIndex : Z) (w : World EngineSwapChain) (owner fence available finished : handle) :
  imagesInFlight (this w) !! Z.to_nat imageIndex = Some owner →
  inFlightFences (this w) !! Z.to_nat (currentFrame (this w)) = Some fence →
  imageAvailableSemaphores (this w) !! Z.to_nat (currentFrame (this w)) = Some available →
  renderFinishedSemaphores (this w) !! Z.to_nat (currentFrame (this w)) = Some finished →
  submitCommandBuffers N dev buffers imageIndex w =
    let waits := if negb (owner =? VK_NULL_HANDLE)
                 then [vkWaitForFences (device dev) [owner] true UINT64_MAX] else [] in
    let s1 := set_imagesInFlight
                (<[Z.to_nat imageIndex := fence]> (imagesInFlight (this w))) (this w) in
    let l1 := log w ++ waits ++
              [vkResetFences (device dev) [fence];
               vkQueueSubmit (graphicsQueue dev)
                 (submitInfo_of available finished buffers) fence] in
    if negb (vkStatus dev l1 =? VK_SUCCESS)
    then Throw "failed to submit draw command buffer!" (mkWorld s1 l1)
    else
      let l2 := l1 ++ [vkQueuePresentKHR (presentQueue dev)
                         (presentInfo_of finished (swapchain (this w)) imageIndex)] in
      Ok (vkStatus dev l2)
         (mkWorld (set_currentFrame (wrap64 (currentFrame (this w) + 1) `mod` N) s1) l2).
Proof.
  intros Ho Hf Ha Hr. destruct w as [s l]. cbn [this log] in *.
  unfold submitCommandBuffers, index, mbind, M_bind, get_this, modify, issue, vk. simpl.
  rewrite Ho. simpl.
  destruct (negb (owner =? VK_NULL_HANDLE)); simpl;
    rewrite Hf; simpl; rewrite Ha; simpl; rewrite Hr; simpl; rewrite Hf; simpl;
    rewrite <- !app_assoc; simpl;
    fold (submitInfo_of available finished buffers);
    destruct (negb _); unfold throw, mret, M_ret; cbn [this log];
    rewrite <- ?app_assoc; reflexivity.
Qed.

(** However the call ends, [currentFrame] is either advanced (the call
    returned) or as it was (the call threw). *)
Lemma submitCommandBuffers_frame (N : Z) (dev : EngineDevice) (buffers : list handle)
    (imageIndex : Z) (w : World EngineSwapChain) :
  match submitCommandBuffers N dev buffers imageIndex w with
  | Ok _ w' => currentFrame (this w') = wrap64 (currentFrame (this w) + 1) `mod` N
  | Throw _ w' => currentFrame (this w') = currentFrame (this w)
  | UB => True
  end.
Proof.
  destruct (imagesInFlight (this w) !! Z.to_nat imageIndex) as [owner|] eqn:Ho;
  [destruct (inFlightFences (this w) !! Z.to_nat (currentFrame (this w)))
     as [fence|] eqn:Hf;
   [destruct (imageAvailableSemaphores (this w) !! Z.to_nat (currentFrame (this w)))
      as [available|] eqn:Ha;
    [destruct (renderFinishedSemaphores (this w) !! Z.to_nat (currentFrame (this w)))
       as [finished|] eqn:Hr|]|]|].
  - rewrite (submitCommandBuffers_steps _ _ _ _ _ _ _ _ _ Ho Hf Ha Hr). cbv zeta.
    destruct (negb _); done.
  - destruct w as [s l]. cbn [this log] in *.
    unfold submitCommandBuffers, index, mbind, M_bind, get_this, modify, issue, vk. simpl.
    rewrite Ho. simpl.
    destruct (negb _); simpl; rewrite Hf; simpl; rewrite Ha; simpl; rewrite Hr; done.
  - destruct w as [s l]. cbn [this log] in *.
    unfold submitCommandBuffers, index, mbind, M_bind, get_this, modify, issue, vk. simpl.
    rewrite Ho. simpl. destruct (negb _); simpl; rewrite Hf; simpl; rewrite Ha; done.
  - destruct w as [s l]. cbn [this log] in *.
    unfold submitCommandBuffers, index, mbind, M_bind, get_this, modify, issue, vk. simpl.
    rewrite Ho. simpl. destruct (negb _); simpl; rewrite Hf; done.
  - destruct w as [s l]. cbn [this log] in *.
    unfold submitCommandBuffers, index, mbind, M_bind, get_this, modify, issue, vk. simpl.
    rewrite Ho. done.
Qed.

Section Frames.
Variable N : Z.
Hypothesis N_positive : 0 < N.
Hypothesis N_size_t : N ≤ UINT64_MAX.

Lemma next_frame (frame : Z) :
  0 ≤ frame < N → wrap64 (frame + 1) `mod` N = (frame + 1) `mod` N.
Proof.
  intros H. unfold wrap64. rewrite (Z.mod_small (frame + 1)); [done|].
  unfold UINT64_MAX in *. lia.
Qed.

Lemma exec_frame (dev : EngineDevice) (op : Op) (w : World EngineSwapChain) :
  0 ≤ currentFrame (this w) < N →
  match exec N dev op w with
  | Ok _ w' =>
      currentFrame (this w') =
        if isSubmit op then (currentFrame (this w) + 1) `mod` N else currentFrame (this w)
  | Throw _ w' => currentFrame (this w') = currentFrame (this w)
  | UB => True
  end.
Proof.
  intros Hcf. destruct (isSubmit op) eqn:Hop.
  - destruct op; try done. simpl.
    pose proof (submitCommandBuffers_frame N dev buffers imageIndex w) as H.
    unfold mbind, M_bind. destruct (submitCommandBuffers _ _ _ _ _); [|done..].
    simpl. by rewrite <- next_frame.
  - pose proof (exec_keeps_frame N dev op Hop w) as H.
    destruct (exec _ _ _ _); done.
Qed.

Lemma run_frame (dev : EngineDevice) (k : nat) (w w' : World EngineSwapChain) :
  run N dev k w w' →
  0 ≤ currentFrame (this w) < N →
  0 ≤ currentFrame (this w') < N ∧
  currentFrame (this w') = (currentFrame (this w) + Z.of_nat k) `mod` N.
Proof.
  induction 1 as [w|op w w1 w2 k Hexec Hrun IH|op what w w1 w2 k Hexec Hrun IH];
    intros Hcf.
  - split; [done|]. rewrite Z.add_0_r, Z.mod_small; done.
  - pose proof (exec_frame dev op w Hcf) as Hstep. rewrite Hexec in Hstep.
    destruct (isSubmit op).
    + destruct IH as [Hin Heq]. { rewrite Hstep. apply Z.mod_pos_bound. done. }
      split; [done|]. rewrite Heq, Hstep.
      rewrite Zplus_mod_idemp_l. f_equal. lia.
    + rewrite Hstep in IH. by apply IH.
  - pose proof (exec_frame dev op w Hcf) as Hstep. rewrite Hexec in Hstep.
    rewrite Hstep in IH. by apply IH.
Qed.

Lemma frame_returns (frame k : Z) :
  0 ≤ frame < N → ((frame + k) `mod` N = frame ↔ k `mod` N = 0).
Proof.
  intros Hcf. rewrite <- Zplus_mod_idemp_r.
  pose proof (Z.mod_pos_bound k N N_positive) as Hr.
  split.
  - intros H. destruct (decide (frame + k `mod` N < N)) as [Hlt|Hge].
    + rewrite Z.mod_small in H by lia. lia.
    + replace (frame + k `mod` N) with ((frame + k `mod` N - N) + 1 * N) in H by lia.
      rewrite Z.mod_add in H by lia. rewrite Z.mod_small in H by lia. lia.
  - intros ->. rewrite Z.add_0_r. by apply Z.mod_small.
Qed.

Lemma run_wf (dev : EngineDevice) (k : nat) (w w' : World EngineSwapChain) :
  run N dev k w w' → wf N (this w) → wf N (this w').
Proof.
  intros Hrun [Hs Hcf]. split; [|by eapply run_frame].
  clear Hcf.
  induction Hrun as [w|op w w1 w2 k Hexec Hrun IH|op what w w1 w2 k Hexec Hrun IH].
  - done.
  - apply IH. pose proof (exec_keeps_shape N dev op w) as H. rewrite Hexec in H.
    by eapply sized_same_shape.
  - apply IH. pose proof (exec_keeps_shape N dev op w) as H. rewrite Hexec in H.
    by eapply sized_same_shape.
Qed.

Lemma wf_lookups (s : EngineSwapChain) :
  wf N s →
  ∃ fence available finished : handle,
    inFlightFences s !! Z.to_nat (currentFrame s) = Some fence ∧
    imageAvailableSemaphores s !! Z.to_nat (currentFrame s) = Some available ∧
    renderFinishedSemaphores s !! Z.to_nat (currentFrame s) = Some finished.
Proof.
  intros [(Ha & Hr & Hf & _) Hcf].
  assert (Z.to_nat (currentFrame s) < Z.to_nat N)%nat as Hlt by lia.
  destruct (lookup_lt_is_Some_2 (inFlightFences s) _
              ltac:(rewrite Hf; exact Hlt)) as [fence ?].
  destruct (lookup_lt_is_Some_2 (imageAvailableSemaphores s) _
              ltac:(rewrite Ha; exact Hlt)) as [available ?].
  destruct (lookup_lt_is_Some_2 (renderFinishedSemaphores s) _
              ltac:(rewrite Hr; exact Hlt)) as [finished ?].
  by exists fence, available, finished.
Qed.

Lemma wf_image (s : EngineSwapChain) (imageIndex : Z) :
  wf N s → 0 ≤ imageIndex < imageCount s →
  ∃ owner : handle, imagesInFlight s !! Z.to_nat imageIndex = Some owner.
Proof.
  intros [(_ & _ & _ & Hi) _] Hidx.
  apply lookup_lt_is_Some_2. rewrite Hi. lia.
Qed.

End Frames.

(** C1, with the advance tied to a queue submission that succeeded.
    With [N = MAX_FRAMES_IN_FLIGHT] a positive [size_t]: [currentFrame]
    starts at 0, its member initialiser, and neither [init] nor
    [createSyncObjects], the two calls of the constructors, writes it;
    no operation other than [submitCommandBuffers] changes it; a call of
    [submitCommandBuffers] with a valid image index issues its calls up
    to the queue submission and then, if the driver answers that
    submission with [VK_SUCCESS], makes the present request, returns its
    status, whatever it is, and has advanced the slot to
    [(currentFrame + 1) mod N]; if the driver answers the submission
    with anything else, the call throws, makes no present request and
    leaves the slot as it was. So along any sequence of operations
    [currentFrame] stays in [0, N), has moved on by the number of
    returned submissions modulo [N], and is back at its value exactly
    after a multiple of [N] of them. *)
Theorem currentFrame_cycles (N : Z) (dev : EngineDevice) :
  0 < N → N ≤ UINT64_MAX →
  (∀ previous, currentFrame (fresh previous) = 0) ∧
  (∀ windowExtent, keeps same_frame (init dev windowExtent)) ∧
  keeps same_frame (createSyncObjects N dev) ∧
  (∀ op, isSubmit op = false → keeps same_frame (exec N dev op)) ∧
  (∀ buffers imageIndex (w : World EngineSwapChain),
     wf N (this w) → 0 ≤ imageIndex < imageCount (this w) →
     ∃ (calls : list Call) (info : VkSubmitInfo.t) (fence : handle)
       (present : VkPresentInfoKHR.t),
       last calls = Some (vkQueueSubmit (graphicsQueue dev) info fence) ∧
       (vkStatus dev (log w ++ calls) = VK_SUCCESS →
          ∃ w', submitCommandBuffers N dev buffers imageIndex w
                  = Ok (vkStatus dev (log w')) w' ∧
                log w' = log w ++ calls ++ [vkQueuePresentKHR (presentQueue dev) present] ∧
                currentFrame (this w') = (currentFrame (this w) + 1) `mod` N) ∧
       (vkStatus dev (log w ++ calls) ≠ VK_SUCCESS →
          ∃ w', submitCommandBuffers N dev buffers imageIndex w
                  = Throw "failed to submit draw command buffer!" w' ∧
                log w' = log w ++ calls ∧
                currentFrame (this w') = currentFrame (this w))) ∧
  (∀ (k : nat) (w w' : World EngineSwapChain),
     wf N (this w) → run N dev k w w' →
     wf N (this w') ∧
     currentFrame (this w') = (currentFrame (this w) + Z.of_nat k) `mod` N ∧
     (currentFrame (this w') = currentFrame (this w) ↔ Z.of_nat k `mod` N = 0)).
Proof.
  intros Hpos Hmax. split; [|split; [|split; [|split; [|split]]]].
  - done.
  - apply init_keeps_frame.
  - apply createSyncObjects_keeps_frame.
  - apply exec_keeps_frame.
  - intros buffers imageIndex w Hwf Hidx.
    destruct (wf_lookups N Hpos _ Hwf) as (fence & available & finished & Hf & Ha & Hr).
    destruct (wf_image N _ _ Hwf Hidx) as [owner Ho].
    pose proof (submitCommandBuffers_steps N dev buffers imageIndex w _ _ _ _ Ho Hf Ha Hr)
      as Hsteps. cbv zeta in Hsteps.
    exists ((if negb (owner =? VK_NULL_HANDLE)
             then [vkWaitForFences (device dev) [owner] true UINT64_MAX] else [])
            ++ [vkResetFences (device dev) [fence];
                vkQueueSubmit (graphicsQueue dev)
                  (submitInfo_of available finished buffers) fence]),
      (submitInfo_of available finished buffers), fence,
      (presentInfo_of finished (swapchain (this w)) imageIndex).
    split. { by rewrite last_app. }
    split; intros Hst.
    + rewrite Hst in Hsteps. simpl in Hsteps.
      eexists (mkWorld _ _). split; [exact Hsteps|]. cbn [this log].
      split; [by rewrite <- !app_assoc|]. simpl. apply (next_frame N Hmax). apply Hwf.
    + apply Z.eqb_neq in Hst. rewrite Hst in Hsteps. simpl in Hsteps.
      eexists. split; [exact Hsteps|]. done.
  - intros k w w' Hwf Hrun.
    destruct (run_frame N Hpos Hmax dev k w w' Hrun (proj2 Hwf)) as [Hin Heq].
    split; [by eapply run_wf|]. split; [done|].
    rewrite Heq. apply frame_returns; [done|]. apply Hwf.
Qed.

Lemma demoWorld0_wf : wf 2 (this demoWorld0).
Proof. split; [by vm_compute|]. split; by vm_compute. Qed.

(** Two frames on images 0 and 1 of the demo swapchain whose present
    requests both report a stale surface: the slot starts at 0, and is
    back at 0 after the two submissions. *)
Lemma currentFrame_cycles_witness :
  currentFrame (this demoWorld0) = 0 ∧
  run 2 (demoDevice VK_SUCCESS VK_ERROR_OUT_OF_DATE_KHR) 2
    demoWorld0
    (demoWorld2 VK_SUCCESS VK_ERROR_OUT_OF_DATE_KHR) ∧
  currentFrame (this (demoWorld2 VK_SUCCESS VK_ERROR_OUT_OF_DATE_KHR))
    = currentFrame (this demoWorld0).
Proof.
  destruct (currentFrame_cycles 2 (demoDevice VK_SUCCESS VK_ERROR_OUT_OF_DATE_KHR))
    as (_ & _ & _ & _ & _ & Hrun); [lia | unfold UINT64_MAX; lia |].
  assert (run 2 (demoDevice VK_SUCCESS VK_ERROR_OUT_OF_DATE_KHR) 2
            demoWorld0
            (demoWorld2 VK_SUCCESS VK_ERROR_OUT_OF_DATE_KHR)) as Htwo.
  { apply (run_returned 2 _ (SubmitCommandBuffers [7] 0) _
             (demoWorld1 VK_SUCCESS VK_ERROR_OUT_OF_DATE_KHR) _ 1).
    { vm_compute; reflexivity. }
    apply (run_returned 2 _ (SubmitCommandBuffers [8] 1) _
             (demoWorld2 VK_SUCCESS VK_ERROR_OUT_OF_DATE_KHR) _ 0).
    { vm_compute; reflexivity. }
    apply run_done. }
  split; [reflexivity|]. split; [exact Htwo|].
  apply (proj2 (proj2 (Hrun 2%nat _ _ demoWorld0_wf Htwo))). reflexivity.
Defined.

(** C1, the advance is not unconditional: on a device whose queue
    submission fails the call throws before the slot is advanced. *)
Lemma submitCommandBuffers_failed_submission_keeps_frame :
  ∃ (what : string) (w' : World EngineSwapChain),
    submitCommandBuffers 2 (demoDevice VK_ERROR_DEVICE_LOST VK_SUCCESS) [7] 0 demoWorld0
      = Throw what w' ∧
    currentFrame (this w') ≠ (currentFrame (this demoWorld0) + 1) `mod` 2.
Proof.
  eexists _, _. split; [vm_compute; reflexivity|]. by vm_compute.
Qed.

(** ** The order of one submission *)

(** C2, with the return tied to a successful queue submission. On an
    object whose reads are in bounds: when the
    fence table holds a fence for the image (whichever frame recorded
    it) the first call issued is the unbounded wait on that fence; the
    table then maps the image to the current slot's fence; that fence is
    reset immediately before the queue submission that signals it; if
    the submission succeeds the present request follows and its status
    is what the call returns; if it fails the call throws and no present
    request is made. *)
Theorem submitCommandBuffers_protocol (N : Z) (dev : EngineDevice) (buffers : list handle)
    (imageIndex : Z) (w : World EngineSwapChain) (owner fence available finished : handle) :
  imagesInFlight (this w) !! Z.to_nat imageIndex = Some owner →
  inFlightFences (this w) !! Z.to_nat (currentFrame (this w)) = Some fence →
  imageAvailableSemaphores (this w) !! Z.to_nat (currentFrame (this w)) = Some available →
  renderFinishedSemaphores (this w) !! Z.to_nat (currentFrame (this w)) = Some finished →
  let wait := vkWaitForFences (device dev) [owner] true UINT64_MAX in
  let reset := vkResetFences (device dev) [fence] in
  let submit := vkQueueSubmit (graphicsQueue dev)
                  (submitInfo_of available finished buffers) fence in
  let present := vkQueuePresentKHR (presentQueue dev)
                   (presentInfo_of finished (swapchain (this w)) imageIndex) in
  let calls := (if decide (owner = VK_NULL_HANDLE) then [] else [wait]) ++ [reset; submit] in
  (owner ≠ VK_NULL_HANDLE → head calls = Some wait) ∧
  (vkStatus dev (log w ++ calls) = VK_SUCCESS →
     ∃ w', submitCommandBuffers N dev buffers imageIndex w = Ok (vkStatus dev (log w')) w' ∧
           log w' = log w ++ calls ++ [present] ∧
           imagesInFlight (this w')
             = <[Z.to_nat imageIndex := fence]> (imagesInFlight (this w)) ∧
           imagesInFlight (this w') !! Z.to_nat imageIndex = Some fence) ∧
  (vkStatus dev (log w ++ calls) ≠ VK_SUCCESS →
     ∃ w', submitCommandBuffers N dev buffers imageIndex w
             = Throw "failed to submit draw command buffer!" w' ∧
           log w' = log w ++ calls ∧
           imagesInFlight (this w')
             = <[Z.to_nat imageIndex := fence]> (imagesInFlight (this w)) ∧
           imagesInFlight (this w') !! Z.to_nat imageIndex = Some fence).
Proof.
  intros Ho Hf Ha Hr wait reset submit present calls.
  pose proof (submitCommandBuffers_steps N dev buffers imageIndex w _ _ _ _ Ho Hf Ha Hr)
    as Hsteps. cbv zeta in Hsteps.
  assert ((if negb (owner =? VK_NULL_HANDLE) then [wait] else []) ++ [reset; submit]
          = calls) as Hcalls.
  { unfold calls. destruct (decide (owner = VK_NULL_HANDLE)) as [->|Hne]; [done|].
    apply Z.eqb_neq in Hne. by rewrite Hne. }
  fold wait reset submit present in Hsteps. rewrite Hcalls in Hsteps.
  assert (<[Z.to_nat imageIndex := fence]> (imagesInFlight (this w))
            !! Z.to_nat imageIndex = Some fence) as Hrecorded.
  { apply list_lookup_insert_eq. by eapply lookup_lt_Some. }
  split; [|split].
  - intros Hne. unfold calls. by destruct (decide (owner = VK_NULL_HANDLE)).
  - intros Hst. rewrite Hst in Hsteps. simpl in Hsteps.
    eexists (mkWorld _ _). split; [exact Hsteps|]. cbn [this log].
    split; [by rewrite <- app_assoc|]. by split.
  - intros Hst. apply Z.eqb_neq in Hst. rewrite Hst in Hsteps. simpl in Hsteps.
    eexists. split; [exact Hsteps|]. done.
Qed.

(** The second frame on image 0 of the demo swapchain: the table holds
    the first frame's fence 107, so the call waits for it, records the
    second slot's fence 110, resets it, submits, presents and returns the
    present status. *)
Lemma submitCommandBuffers_protocol_witness :
  ∃ w' : World EngineSwapChain,
    submitCommandBuffers 2 (demoDevice VK_SUCCESS VK_SUBOPTIMAL_KHR) [8] 0
      (demoWorld1 VK_SUCCESS VK_SUBOPTIMAL_KHR) = Ok (vkStatus (demoDevice VK_SUCCESS VK_SUBOPTIMAL_KHR) (log w')) w' ∧
    log w' = log (demoWorld1 VK_SUCCESS VK_SUBOPTIMAL_KHR) ++
             [vkWaitForFences 1 [107] true UINT64_MAX;
              vkResetFences 1 [110];
              vkQueueSubmit 3 (submitInfo_of 108 109 [8]) 110;
              vkQueuePresentKHR 4 (presentInfo_of 109 102 0)] ∧
    imagesInFlight (this w') !! 0%nat = Some 110.
Proof.
  destruct (submitCommandBuffers_protocol 2 (demoDevice VK_SUCCESS VK_SUBOPTIMAL_KHR)
              [8] 0 (demoWorld1 VK_SUCCESS VK_SUBOPTIMAL_KHR) 107 110 108 109)
    as (_ & Hok & _); [vm_compute; reflexivity..|].
  destruct Hok as (w' & Hcall & Hlog & _ & Hrecorded); [vm_compute; reflexivity|].
  exists w'. split; [exact Hcall|]. split; [exact Hlog|exact Hrecorded].
Defined.

(** C2, not every call returns: when the queue submission fails the
    call throws, so it returns no status and makes no present request. *)
Lemma submitCommandBuffers_failed_submission_returns_nothing :
  (∀ result w', submitCommandBuffers 2 (demoDevice VK_ERROR_DEVICE_LOST VK_SUCCESS)
                  [7] 0 demoWorld0 ≠ Ok result w') ∧
  (∀ what w', submitCommandBuffers 2 (demoDevice VK_ERROR_DEVICE_LOST VK_SUCCESS)
                [7] 0 demoWorld0 = Throw what w' →
              ∀ queue info, vkQueuePresentKHR queue info ∉ log w').
Proof.
  split.
  - intros result w'. by vm_compute.
  - intros what w'. vm_compute. intros [= <- <-] queue info Hin.
    repeat (apply elem_of_cons in Hin as [Hin|Hin]; [discriminate Hin|]).
    by apply elem_of_nil in Hin.
Qed.

(** ** Acquiring an image *)

Lemma acquireNextImage_steps (dev : EngineDevice) (imageIndex : Z)
    (w : World EngineSwapChain) (fence available : handle) :
  inFlightFences (this w) !! Z.to_nat (currentFrame (this w)) = Some fence →
  imageAvailableSemaphores (this w) !! Z.to_nat (currentFrame (this w)) = Some available →
  acquireNextImage dev imageIndex w =
    let l' := log w ++ [vkWaitForFences (device dev) [fence] true UINT64_MAX;
                        vkAcquireNextImageKHR (device dev) (swapchain (this w)) UINT64_MAX
                          available VK_NULL_HANDLE] in
    Ok (vkStatus dev l', default imageIndex (vkOutImageIndex dev l')) (mkWorld (this w) l').
Proof.
  intros Hf Ha. destruct w as [s l]. cbn [this log] in *.
  unfold acquireNextImage, index, mbind, M_bind, get_this, issue, vk, out_imageIndex.
  cbn [this log]. rewrite Hf. cbn [this log mret M_ret]. rewrite Ha.
  cbn [this log mret M_ret]. rewrite <- ?app_assoc. reflexivity.
Qed.

Lemma acquireNextImage_never_throws (dev : EngineDevice) (imageIndex : Z)
    (w : World EngineSwapChain) (what : string) (w' : World EngineSwapChain) :
  acquireNextImage dev imageIndex w ≠ Throw what w'.
Proof.
  destruct w as [s l].
  unfold acquireNextImage, index, mbind, M_bind, get_this, issue, vk, out_imageIndex.
  cbn [this log].
  destruct (inFlightFences s !! _); cbn [this log mret M_ret undefined]; [|done].
  destruct (imageAvailableSemaphores s !! _); cbn [this log mret M_ret undefined]; done.
Qed.

(** C10. [acquireNextImage] leaves the object as it found it: every
    member ([currentFrame], the fence table, the semaphore and fence
    vectors, extent, formats, image count, attachment) is unchanged, and
    it never throws. With the slot in bounds it returns the driver's
    status and the image index behind the pointer, having issued the wait
    on the slot's fence and the acquisition, and nothing else. *)
Theorem acquireNextImage_mutates_nothing (dev : EngineDevice) (imageIndex : Z)
    (w : World EngineSwapChain) :
  (∀ r w', acquireNextImage dev imageIndex w = Ok r w' → this w' = this w) ∧
  (∀ what w', acquireNextImage dev imageIndex w ≠ Throw what w') ∧
  (∀ fence available : handle,
     inFlightFences (this w) !! Z.to_nat (currentFrame (this w)) = Some fence →
     imageAvailableSemaphores (this w) !! Z.to_nat (currentFrame (this w))
       = Some available →
     ∃ status written,
       acquireNextImage dev imageIndex w
         = Ok (status, written)
              (mkWorld (this w)
                 (log w ++ [vkWaitForFences (device dev) [fence] true UINT64_MAX;
                            vkAcquireNextImageKHR (device dev) (swapchain (this w))
                              UINT64_MAX available VK_NULL_HANDLE]))).
Proof.
  split; [|split].
  - intros r w' H. pose proof (acquireNextImage_keeps_object dev imageIndex w) as Hk.
    rewrite H in Hk. done.
  - apply acquireNextImage_never_throws.
  - intros fence available Hf Ha.
    rewrite (acquireNextImage_steps _ _ _ _ _ Hf Ha). cbv zeta. by eexists _, _.
Qed.

(** Acquisition on the demo swapchain. *)
Lemma acquireNextImage_mutates_nothing_witness :
  ∃ status written,
    acquireNextImage (demoDevice VK_SUCCESS VK_SUCCESS) 0
      demoWorld0
    = Ok (status, written)
         (mkWorld (this demoWorld0)
            (log demoWorld0 ++
             [vkWaitForFences 1 [107] true UINT64_MAX;
              vkAcquireNextImageKHR 1 102 UINT64_MAX 105 VK_NULL_HANDLE])).
Proof.
  apply (proj2 (proj2 (acquireNextImage_mutates_nothing
                         (demoDevice VK_SUCCESS VK_SUCCESS) 0
                         demoWorld0)) 107 105);
    vm_compute; reflexivity.
Defined.

(** ** Construction *)

Lemma specImageCount_code (capabilities : VkSurfaceCapabilitiesKHR) :
  (if (0 <? maxImageCount capabilities)
      && (maxImageCount capabilities <? wrap32 (minImageCount capabilities + 1))
   then maxImageCount capabilities
   else wrap32 (minImageCount capabilities + 1))
  = specImageCount capabilities.
Proof. unfold specImageCount. destruct (0 <? _); simpl; [|done]. case_match; lia. Qed.

(** Lines 52 to 108 of [init] on a device that offers a surface format
    and a depth format: what they ask of the driver and, when the chain
    is created, what they leave in the object. *)
Lemma init_swapchain_explicit (dev : EngineDevice) (windowExtent : VkExtent2D)
    (s : EngineSwapChain) (l : list Call) (surfaceFormat : VkSurfaceFormatKHR)
    (depth : VkFormat) :
  chooseSwapSurfaceFormat (formats (getSwapChainSupport dev)) = Some surfaceFormat →
  findDepthFormat dev true = Some depth →
  init_swapchain dev windowExtent (mkWorld s l) =
    let said := chooseSwapPresentMode (presentModes (getSwapChainSupport dev)) in
    let s1 := selected dev windowExtent surfaceFormat depth s in
    let l1 := l ++ [cout said.1;
                    vkCreateSwapchainKHR (device dev)
                      (createInfo_of dev surfaceFormat said.2 s1)] in
    if negb (vkStatus dev l1 =? VK_SUCCESS)
    then Throw "failed to create swap chain!" (mkWorld s1 l1)
    else
      let n := Z.of_nat (length (vkSwapchainImages dev)) in
      Ok (vkSwapchainImages dev)
         (mkWorld
            (set_imageCount n (set_swapchain (vkOutHandle dev l1) s1))
            (l1 ++ [vkGetSwapchainImagesKHR (device dev) (vkOutHandle dev l1)
                      (specImageCount (capabilities (getSwapChainSupport dev))) true;
                    vkGetSwapchainImagesKHR (device dev) (vkOutHandle dev l1) n false])).
Proof.
  intros Hfmt Hdepth.
  unfold init_swapchain. cbv zeta. rewrite Hfmt, Hdepth.
  unfold defined, mbind, M_bind, get_this, modify, issue, vk, out_handle, throw.
  cbn [this log mret M_ret imageCount set_imageCount].
  pose proof (specImageCount_code (capabilities (getSwapChainSupport dev))) as Hcount.
  unfold selected, createInfo_of.
  destruct ((0 <? _) && _);
    cbn [this log mret M_ret imageCount imageFormat extent oldSwapchain swapchain
         set_imageCount set_extent set_depthFormat set_imageFormat set_swapchain
         set_swapchainAttachment];
    rewrite <- ?app_assoc; cbn [app]; rewrite <- Hcount;
    (destruct (negb (vkStatus dev _ =? VK_SUCCESS)); [reflexivity|]);
    cbn [this log imageCount set_imageCount set_swapchain swapchain];
    rewrite !Nat2Z.id, !firstn_all, !drop_replicate, !Nat.sub_diag; cbn [replicate];
    rewrite !app_nil_r; rewrite <- ?app_assoc; reflexivity.
Qed.

(** [init] ends as its lines 52 to 108 do, except that where they
    complete, line 109 reads the dead [props] of
    [getAttachmentProperties]. *)
Lemma init_after_swapchain (dev : EngineDevice) (windowExtent : VkExtent2D)
    (w : World EngineSwapChain) :
  init dev windowExtent w =
    match init_swapchain dev windowExtent w with
    | Ok _ _ => UB
    | Throw what w' => Throw what w'
    | UB => UB
    end.
Proof.
  unfold init, mbind, M_bind. by destruct (init_swapchain dev windowExtent w).
Qed.

(** C7. Whatever the surface capabilities, construction asks the driver
    for [min(minImageCount + 1, maxImageCount)] images when a maximum is
    declared and for [minImageCount + 1] when it is 0 (the sum is a
    [uint32_t] sum, so it is the plain sum unless [minImageCount] is
    [UINT32_MAX]). When the chain is created, lines 106 to 108 set
    [imageCount] to the number of images the driver hands out; the
    attachment, however, is never built: line 109 copies the
    properties from the reference that [getAttachmentProperties]
    returns to its own local, and [init] is undefined there. *)
Theorem init_requests_image_count_then_undefined (dev : EngineDevice)
    (windowExtent : VkExtent2D) (w : World EngineSwapChain)
    (surfaceFormat : VkSurfaceFormatKHR) (depth : VkFormat) :
  chooseSwapSurfaceFormat (formats (getSwapChainSupport dev)) = Some surfaceFormat →
  findDepthFormat dev true = Some depth →
  let caps := capabilities (getSwapChainSupport dev) in
  (0 ≤ minImageCount caps < UINT32_MAX →
     specImageCount caps
       = if 0 <? maxImageCount caps
         then Z.min (minImageCount caps + 1) (maxImageCount caps)
         else minImageCount caps + 1) ∧
  ∃ createInfo,
    VkSwapchainCreateInfoKHR.minImageCount createInfo = specImageCount caps ∧
    let l1 := log w ++ [cout (chooseSwapPresentMode
                                (presentModes (getSwapChainSupport dev))).1;
                        vkCreateSwapchainKHR (device dev) createInfo] in
    (vkStatus dev l1 ≠ VK_SUCCESS →
       ∃ w', init dev windowExtent w = Throw "failed to create swap chain!" w' ∧
             log w' = l1) ∧
    (vkStatus dev l1 = VK_SUCCESS →
       (∃ w1, init_swapchain dev windowExtent w = Ok (vkSwapchainImages dev) w1 ∧
              take 2 (drop (length (log w)) (log w1))
                = [cout (chooseSwapPresentMode
                           (presentModes (getSwapChainSupport dev))).1;
                   vkCreateSwapchainKHR (device dev) createInfo] ∧
              imageCount (this w1) = Z.of_nat (length (vkSwapchainImages dev)) ∧
              swapchainAttachment (this w1) = swapchainAttachment (this w)) ∧
       init dev windowExtent w = UB).
Proof.
  intros Hfmt Hdepth caps. split.
  - intros Hmin. unfold specImageCount, wrap32. fold caps.
    rewrite Z.mod_small; [done|]. unfold UINT32_MAX in Hmin. lia.
  - destruct w as [s l].
    pose proof (init_swapchain_explicit dev windowExtent s l surfaceFormat depth
                  Hfmt Hdepth) as Hsteps.
    pose proof (init_after_swapchain dev windowExtent (mkWorld s l)) as Hinit.
    cbv zeta in Hsteps. cbn [log].
    exists (createInfo_of dev surfaceFormat
              (chooseSwapPresentMode (presentModes (getSwapChainSupport dev))).2
              (selected dev windowExtent surfaceFormat depth s)).
    split; [|split; intros Hst].
    + unfold createInfo_of, selected. by destruct s.
    + apply Z.eqb_neq in Hst. rewrite Hst in Hsteps. cbn [negb] in Hsteps.
      rewrite Hsteps in Hinit. eexists. split; [exact Hinit|]. done.
    + rewrite Hst, Z.eqb_refl in Hsteps. cbn [negb] in Hsteps.
      rewrite Hsteps in Hinit. split; [|exact Hinit].
      eexists. split; [exact Hsteps|]. cbn [this log].
      split. { rewrite <- app_assoc, drop_app_length. reflexivity. }
      split; [by destruct s|]. by destruct s.
Qed.

(** The spec's end-to-end construction (window 800 by 600, at least 2
    images, no maximum) on a driver that hands out three images: 3
    images are asked for, and [init] is undefined. *)
Lemma init_requests_image_count_then_undefined_witness :
  (∃ createInfo w1,
     init_swapchain (demoDevice VK_SUCCESS VK_SUCCESS) demoExtent (mkWorld (fresh None) [])
       = Ok [11; 12; 13] w1 ∧
     log w1 !! 1%nat = Some (vkCreateSwapchainKHR 1 createInfo) ∧
     VkSwapchainCreateInfoKHR.minImageCount createInfo = 3 ∧
     imageCount (this w1) = 3 ∧
     swapchainAttachment (this w1) = None) ∧
  init (demoDevice VK_SUCCESS VK_SUCCESS) demoExtent (mkWorld (fresh None) []) = UB.
Proof.
  destruct (init_requests_image_count_then_undefined
              (demoDevice VK_SUCCESS VK_SUCCESS) demoExtent
              (mkWorld (fresh None) []) preferredSurfaceFormat VK_FORMAT_D24_UNORM_S8_UINT)
    as (_ & createInfo & Hrequested & _ & Hok); [vm_compute; reflexivity..|].
  destruct Hok as ((w1 & Hrun & Hcalls & Hcount & Hattachment) & Hundefined).
  - vm_compute; reflexivity.
  - split; [|exact Hundefined].
    exists createInfo, w1. split; [exact Hrun|].
    split. { apply (f_equal (λ l, l !! 1%nat)) in Hcalls.
             rewrite lookup_take_lt, lookup_drop in Hcalls by lia. exact Hcalls. }
    split; [exact Hrequested|]. split; [exact Hcount|exact Hattachment].
Defined.

(** ** Push constants *)

(** C8. [writePushConstants] issues exactly one [vkCmdPushConstants], of
    [sizeof(T)] bytes at offset 0 with the vertex and the fragment stage
    bits both set, and returns; it does so for every payload type and
    every material, so also when [sizeof(T)] exceeds the [pushConstSize]
    the material was created with: nothing compares the two sizes and
    nothing is thrown. *)
Theorem writePushConstants_unchecked {T : Type} `{Material_h.Payload T}
    (cmdBuf : handle) (data : T) (w : World Material_h.Material) :
  Material_h.writePushConstants cmdBuf data w
    = Ok () (mkWorld (this w)
               (log w ++ [vkCmdPushConstants cmdBuf (Material_h.pipelineLayout (this w))
                            (Z.lor VK_SHADER_STAGE_VERTEX_BIT VK_SHADER_STAGE_FRAGMENT_BIT)
                            0 (Material_h.sizeof T) (Material_h.bytes data)])) ∧
  Z.land (Z.lor VK_SHADER_STAGE_VERTEX_BIT VK_SHADER_STAGE_FRAGMENT_BIT)
         VK_SHADER_STAGE_VERTEX_BIT = VK_SHADER_STAGE_VERTEX_BIT ∧
  Z.land (Z.lor VK_SHADER_STAGE_VERTEX_BIT VK_SHADER_STAGE_FRAGMENT_BIT)
         VK_SHADER_STAGE_FRAGMENT_BIT = VK_SHADER_STAGE_FRAGMENT_BIT ∧
  (Material_h.pushConstSize (Material_h.materialCreateInfo (this w)) < Material_h.sizeof T →
     ∃ w', Material_h.writePushConstants cmdBuf data w = Ok () w' ∧ this w' = this w).
Proof.
  assert (Material_h.writePushConstants cmdBuf data w
          = Ok () (mkWorld (this w)
                     (log w ++ [vkCmdPushConstants cmdBuf
                                  (Material_h.pipelineLayout (this w))
                                  (Z.lor VK_SHADER_STAGE_VERTEX_BIT
                                         VK_SHADER_STAGE_FRAGMENT_BIT)
                                  0 (Material_h.sizeof T) (Material_h.bytes data)])))
    as Hcall by reflexivity.
  split; [exact Hcall|]. split; [reflexivity|]. split; [reflexivity|].
  intros _. eexists. split; [exact Hcall|]. reflexivity.
Qed.

(** A 128-byte mesh payload written through a material created with
    [pushConstSize = 64]. *)
Lemma writePushConstants_unchecked_witness :
  ∃ w', Material_h.writePushConstants 9 Material_h.demoMesh
          (mkWorld (Material_h.demoMaterial 64) []) = Ok () w' ∧
        this w' = Material_h.demoMaterial 64.
Proof.
  apply (proj2 (proj2 (proj2 (writePushConstants_unchecked 9 Material_h.demoMesh
                                (mkWorld (Material_h.demoMaterial 64) []))))).
  vm_compute. reflexivity.
Defined.

(** ** The selectors on concrete inputs *)

Lemma chooseSwapSurfaceFormat_preferred_else_first_witness :
  chooseSwapSurfaceFormat (formats demoSupport) = Some preferredSurfaceFormat ∧
  chooseSwapSurfaceFormat
    [ {| format := VK_FORMAT_B8G8R8A8_UNORM; colorSpace := VK_COLOR_SPACE_SRGB_NONLINEAR_KHR |};
      {| format := VK_FORMAT_B8G8R8A8_SRGB; colorSpace := 1000104001 |} ]
  = Some {| format := VK_FORMAT_B8G8R8A8_UNORM;
            colorSpace := VK_COLOR_SPACE_SRGB_NONLINEAR_KHR |}.
Proof.
  split.
  - apply (proj1 (chooseSwapSurfaceFormat_preferred_else_first (formats demoSupport))).
    compute_done.
  - refine (proj2 (chooseSwapSurfaceFormat_preferred_else_first
                     [ {| format := VK_FORMAT_B8G8R8A8_UNORM;
                          colorSpace := VK_COLOR_SPACE_SRGB_NONLINEAR_KHR |};
                       {| format := VK_FORMAT_B8G8R8A8_SRGB;
                          colorSpace := 1000104001 |} ]) _).
    compute_done.
Defined.

Lemma chooseSwapSurfaceFormat_defined_iff_nonempty_witness :
  ∃ f, chooseSwapSurfaceFormat (formats demoSupport) = Some f ∧ f ∈ formats demoSupport.
Proof.
  apply (proj1 (chooseSwapSurfaceFormat_defined_iff_nonempty (formats demoSupport))).
  discriminate.
Defined.

Lemma chooseSwapPresentMode_immediate_else_fifo_witness :
  (chooseSwapPresentMode (presentModes demoSupport)).2 = VK_PRESENT_MODE_IMMEDIATE_KHR ∧
  (chooseSwapPresentMode [VK_PRESENT_MODE_MAILBOX_KHR; VK_PRESENT_MODE_FIFO_RELAXED_KHR]).2
    = VK_PRESENT_MODE_FIFO_KHR.
Proof.
  split.
  - apply (proj1 (chooseSwapPresentMode_immediate_else_fifo (presentModes demoSupport))).
    compute_done.
  - apply (proj1 (proj2 (chooseSwapPresentMode_immediate_else_fifo _))).
    compute_done.
Defined.

Lemma chooseSwapExtent_clamped_or_current_witness :
  chooseSwapExtent (capabilities demoSupport) {| width := 8000; height := 0 |}
    = {| width := 4096; height := 1 |} ∧
  chooseSwapExtent demoFixedCapabilities demoExtent = {| width := 1024; height := 768 |}.
Proof.
  split.
  - destruct (proj1 (chooseSwapExtent_clamped_or_current (capabilities demoSupport)
                       {| width := 8000; height := 0 |})) as (Hclamp & _ & _).
    + reflexivity.
    + split; vm_compute; discriminate.
    + rewrite Hclamp. reflexivity.
  - refine (proj2 (chooseSwapExtent_clamped_or_current demoFixedCapabilities demoExtent) _).
    vm_compute. discriminate.
Defined.

(** The demo device supports the 24-bit stencil format only; a device
    that supports the depth-only format only has nothing to offer when a
    stencil is required. *)
Lemma findDepthFormat_first_supported_candidate_witness :
  findDepthFormat (demoDevice VK_SUCCESS VK_SUCCESS) true = Some VK_FORMAT_D24_UNORM_S8_UINT ∧
  findDepthFormat (demoDevice VK_SUCCESS VK_SUCCESS) false
    = Some VK_FORMAT_D24_UNORM_S8_UINT ∧
  findDepthFormat demoDepthOnlyDevice true = None ∧
  findDepthFormat demoDepthOnlyDevice false = Some VK_FORMAT_D32_SFLOAT.
Proof.
  split; [|split; [|split]].
  - apply (proj1 (findDepthFormat_first_supported_candidate
                    (demoDevice VK_SUCCESS VK_SUCCESS) true)).
    exists 1%nat. split; [reflexivity|]. split; [reflexivity|].
    intros [|j] f Hj; [|lia]. by intros [= <-].
  - apply (proj1 (findDepthFormat_first_supported_candidate
                    (demoDevice VK_SUCCESS VK_SUCCESS) false)).
    exists 1%nat. split; [reflexivity|]. split; [reflexivity|].
    intros [|j] f Hj; [|lia]. by intros [= <-].
  - apply (proj1 (proj2 (findDepthFormat_first_supported_candidate
                           demoDepthOnlyDevice true))).
    intros f Hin. apply elem_of_cons in Hin as [->|Hin]; [reflexivity|].
    apply elem_of_cons in Hin as [->|Hin]; [reflexivity|]. by apply elem_of_nil in Hin.
  - apply (proj2 (proj2 (proj2 (proj2 (findDepthFormat_first_supported_candidate
                                         demoDepthOnlyDevice false)))) eq_refl).
    by vm_compute.
Defined.

(** * Further properties of the code *)

(** ** The selectors *)

(** X1. The present mode chosen is immediate exactly when immediate is
    offered and FIFO otherwise, so it is never mailbox, whatever is
    offered; FIFO is returned without looking for it in the list; and the
    line written to [std::cout] names the mode returned. *)
Theorem chooseSwapPresentMode_never_mailbox (availablePresentModes : list VkPresentModeKHR) :
  ((chooseSwapPresentMode availablePresentModes).2 = VK_PRESENT_MODE_IMMEDIATE_KHR
   ↔ VK_PRESENT_MODE_IMMEDIATE_KHR ∈ availablePresentModes) ∧
  ((chooseSwapPresentMode availablePresentModes).2 = VK_PRESENT_MODE_FIFO_KHR
   ↔ VK_PRESENT_MODE_IMMEDIATE_KHR ∉ availablePresentModes) ∧
  (chooseSwapPresentMode availablePresentModes).2 ≠ VK_PRESENT_MODE_MAILBOX_KHR ∧
  ((chooseSwapPresentMode availablePresentModes).1 = "Present mode: Immediate"%string
   ↔ (chooseSwapPresentMode availablePresentModes).2 = VK_PRESENT_MODE_IMMEDIATE_KHR) ∧
  ((chooseSwapPresentMode availablePresentModes).1 = "Present mode: V-Sync"%string
   ↔ (chooseSwapPresentMode availablePresentModes).2 = VK_PRESENT_MODE_FIFO_KHR).
Proof.
  unfold chooseSwapPresentMode.
  destruct (decide (VK_PRESENT_MODE_IMMEDIATE_KHR ∈ availablePresentModes)) as [Hin|Hnin].
  - rewrite (firstImmediate_elem _ Hin). simpl. repeat split; try done.
  - rewrite (firstImmediate_not_elem _ Hnin). simpl. repeat split; try done.
Qed.

Lemma clamp_code_idempotent (lo hi x : Z) :
  Z.max lo (Z.min hi (Z.max lo (Z.min hi x))) = Z.max lo (Z.min hi x).
Proof. lia. Qed.

(** X2. [chooseSwapExtent] is idempotent. When the surface leaves the
    extent open, the result is never below [minImageExtent], also for
    capabilities whose minimum exceeds their maximum; it grows with the
    window extent; and a window extent already between the two bounds is
    returned as it is. *)
Theorem chooseSwapExtent_idempotent_monotone
    (capabilities : VkSurfaceCapabilitiesKHR) (windowExtent windowExtent' : VkExtent2D) :
  width (currentExtent capabilities) = UINT32_MAX →
  chooseSwapExtent capabilities (chooseSwapExtent capabilities windowExtent)
    = chooseSwapExtent capabilities windowExtent ∧
  extent_le (minImageExtent capabilities) (chooseSwapExtent capabilities windowExtent) ∧
  (extent_le windowExtent windowExtent' →
     extent_le (chooseSwapExtent capabilities windowExtent)
               (chooseSwapExtent capabilities windowExtent')) ∧
  (extent_le (minImageExtent capabilities) windowExtent →
   extent_le windowExtent (maxImageExtent capabilities) →
     chooseSwapExtent capabilities windowExtent = windowExtent).
Proof.
  intros Hopen. unfold chooseSwapExtent, extent_le. rewrite Hopen, Z.eqb_refl. simpl.
  rewrite !clamp_code_idempotent.
  split; [done|]. split; [lia|]. split; [lia|].
  intros [? ?] [? ?]. destruct windowExtent as [wd ht]. simpl in *. f_equal; lia.
Qed.

Lemma chooseSwapExtent_idempotent_monotone_witness :
  chooseSwapExtent (capabilities demoSupport) demoExtent = demoExtent ∧
  extent_le (chooseSwapExtent (capabilities demoSupport) demoExtent)
            (chooseSwapExtent (capabilities demoSupport) {| width := 8000; height := 600 |}).
Proof.
  destruct (chooseSwapExtent_idempotent_monotone (capabilities demoSupport) demoExtent
              {| width := 8000; height := 600 |} eq_refl) as (_ & _ & Hmono & Hfix).
  split.
  - apply Hfix; split; vm_compute; discriminate.
  - apply Hmono; split; vm_compute; discriminate.
Defined.

(** ** What the operations leave alone *)

#[global] Instance same_resources_preorder : PreOrder same_resources.
Proof.
  split; unfold same_resources.
  - intros s. done.
  - intros s1 s2 s3 (?&?&?&?&?&?&?&?&?&?) (?&?&?&?&?&?&?&?&?&?).
    repeat split; congruence.
Qed.

#[global] Instance same_chain_preorder : PreOrder same_chain.
Proof.
  split; unfold same_chain.
  - intros s. done.
  - intros s1 s2 s3 (?&?&?&?&?&?&?&?&?) (?&?&?&?&?&?&?&?&?).
    repeat split; congruence.
Qed.

Lemma exec_keeps_resources (N : Z) (dev : EngineDevice) (op : Op) :
  keeps same_resources (exec N dev op).
Proof.
  destruct op; unfold exec, acquireNextImage, submitCommandBuffers, getSwapchainAttachment.
  all: keeps_tac; done.
Qed.

Lemma run_keeps (R : relation EngineSwapChain) `{!PreOrder R} (N : Z)
    (dev : EngineDevice) (k : nat) (w w' : World EngineSwapChain) :
  (∀ op, keeps R (exec N dev op)) → run N dev k w w' → R (this w) (this w').
Proof.
  intros Hk. induction 1 as [w|op w w1 w2 k Hexec Hrun IH|op what w w1 w2 k Hexec Hrun IH].
  - reflexivity.
  - specialize (Hk op w). rewrite Hexec in Hk. by etrans.
  - specialize (Hk op w). rewrite Hexec in Hk. by etrans.
Qed.

(** The call is undefined unless its four unchecked reads are in bounds. *)
Lemma submitCommandBuffers_reads (N : Z) (dev : EngineDevice) (buffers : list handle)
    (imageIndex : Z) (w : World EngineSwapChain) :
  submitCommandBuffers N dev buffers imageIndex w ≠ UB →
  ∃ owner fence available finished : handle,
    imagesInFlight (this w) !! Z.to_nat imageIndex = Some owner ∧
    inFlightFences (this w) !! Z.to_nat (currentFrame (this w)) = Some fence ∧
    imageAvailableSemaphores (this w) !! Z.to_nat (currentFrame (this w)) = Some available ∧
    renderFinishedSemaphores (this w) !! Z.to_nat (currentFrame (this w)) = Some finished.
Proof.
  intros Hdef.
  destruct (imagesInFlight (this w) !! Z.to_nat imageIndex) as [owner|] eqn:Ho;
  [destruct (inFlightFences (this w) !! Z.to_nat (currentFrame (this w)))
     as [fence|] eqn:Hf;
   [destruct (imageAvailableSemaphores (this w) !! Z.to_nat (currentFrame (this w)))
      as [available|] eqn:Ha;
    [destruct (renderFinishedSemaphores (this w) !! Z.to_nat (currentFrame (this w)))
       as [finished|] eqn:Hr|]|]|].
  - by exists owner, fence, available, finished.
  - exfalso. apply Hdef. destruct w as [s l]. cbn [this log] in *.
    unfold submitCommandBuffers, index, mbind, M_bind, get_this, modify, issue, vk. simpl.
    rewrite Ho. simpl.
    destruct (negb _); simpl; rewrite Hf; simpl; rewrite Ha; simpl; rewrite Hr; done.
  - exfalso. apply Hdef. destruct w as [s l]. cbn [this log] in *.
    unfold submitCommandBuffers, index, mbind, M_bind, get_this, modify, issue, vk. simpl.
    rewrite Ho. simpl. destruct (negb _); simpl; rewrite Hf; simpl; rewrite Ha; done.
  - exfalso. apply Hdef. destruct w as [s l]. cbn [this log] in *.
    unfold submitCommandBuffers, index, mbind, M_bind, get_this, modify, issue, vk. simpl.
    rewrite Ho. simpl. destruct (negb _); simpl; rewrite Hf; done.
  - exfalso. apply Hdef. destruct w as [s l]. cbn [this log] in *.
    unfold submitCommandBuffers, index, mbind, M_bind, get_this, modify, issue, vk. simpl.
    rewrite Ho. done.
Qed.

(** X3. However [submitCommandBuffers] ends, by returning or by
    throwing, it has written one entry of the fence table, the one of
    the image, with the fence of the slot it ran in, and nothing else but
    [currentFrame]: formats, extent, attachment, chain handle, image
    count, semaphores and fences are as they were, and so is every other
    entry of the table. *)
Theorem submitCommandBuffers_writes_one_entry (N : Z) (dev : EngineDevice)
    (buffers : list handle) (imageIndex : Z) (w : World EngineSwapChain) :
  match submitCommandBuffers N dev buffers imageIndex w with
  | Ok _ w' | Throw _ w' =>
      same_resources (this w) (this w') ∧
      ∃ fence : handle,
        inFlightFences (this w) !! Z.to_nat (currentFrame (this w)) = Some fence ∧
        imagesInFlight (this w')
          = <[Z.to_nat imageIndex := fence]> (imagesInFlight (this w)) ∧
        imagesInFlight (this w') !! Z.to_nat imageIndex = Some fence ∧
        ∀ j : nat, j ≠ Z.to_nat imageIndex →
          imagesInFlight (this w') !! j = imagesInFlight (this w) !! j
  | UB => True
  end.
Proof.
  destruct (submitCommandBuffers N dev buffers imageIndex w) as [r w'|what w'|] eqn:E;
    [| |done].
  all: destruct (submitCommandBuffers_reads N dev buffers imageIndex w)
         as (owner & fence & available & finished & Ho & Hf & Ha & Hr); [by rewrite E|].
  all: rewrite (submitCommandBuffers_steps _ _ _ _ _ _ _ _ _ Ho Hf Ha Hr) in E;
    cbv zeta in E; destruct (negb _); simplify_eq; cbn [this log].
  all: split; [done|]; exists fence; split; [done|]; split; [done|]; split;
    [apply list_lookup_insert_eq; by eapply lookup_lt_Some
    |intros j Hj; by apply list_lookup_insert_ne].
Qed.

(** ** Construction, step by step *)

Lemma init_swapchain_Ok_inv (dev : EngineDevice) (windowExtent : VkExtent2D)
    (w w1 : World EngineSwapChain) (swapImages : list handle) :
  init_swapchain dev windowExtent w = Ok swapImages w1 →
  ∃ surfaceFormat depth,
    chooseSwapSurfaceFormat (formats (getSwapChainSupport dev)) = Some surfaceFormat ∧
    findDepthFormat dev true = Some depth.
Proof.
  intros H.
  destruct (chooseSwapSurfaceFormat (formats (getSwapChainSupport dev)))
    as [surfaceFormat|] eqn:Hfmt.
  - destruct (findDepthFormat dev true) as [depth|] eqn:Hdepth; [by eauto|].
    exfalso. revert H. unfold init_swapchain. cbv zeta. rewrite Hfmt, Hdepth.
    unfold defined, mbind, M_bind, get_this, modify, issue, vk, out_handle, throw.
    cbn [this log mret M_ret]. done.
  - exfalso. revert H. unfold init_swapchain. cbv zeta. rewrite Hfmt.
    unfold defined, mbind, M_bind, undefined. done.
Qed.

(** One iteration of the loop of [createSyncObjects]: it creates a
    semaphore, a semaphore and a signaled fence, in this order, throws at
    the first creation that fails and is never undefined. *)
Lemma createSyncObjects_body_cases (dev : EngineDevice) (i : Z)
    (w : World EngineSwapChain) :
  match createSyncObjects_body dev i w with
  | Ok _ w' =>
      log w' = log w ++ syncCreates1 dev ∧
      ∀ k : nat, (1 ≤ k ≤ 3)%nat →
        vkStatus dev (log w ++ take k (syncCreates1 dev)) = VK_SUCCESS
  | Throw what w' =>
      what = "failed to create synchronization objects for a frame"%string ∧
      ∃ k : nat, (1 ≤ k ≤ 3)%nat ∧
        log w' = log w ++ take k (syncCreates1 dev) ∧
        vkStatus dev (log w') ≠ VK_SUCCESS ∧
        ∀ j : nat, (1 ≤ j < k)%nat →
          vkStatus dev (log w ++ take j (syncCreates1 dev)) = VK_SUCCESS
  | UB => False
  end.
Proof.
  destruct w as [s l].
  unfold createSyncObjects_body, mbind, M_bind, vk, out_handle, modify, throw.
  cbn [this log mret M_ret].
  destruct (vkStatus dev (l ++ [vkCreateSemaphore (device dev)]) =? VK_SUCCESS) eqn:E1;
    cbn [negb this log].
  2:{ split; [done|]. exists 1%nat. apply Z.eqb_neq in E1.
      split; [lia|]. split; [done|]. split; [done|]. intros j Hj. lia. }
  destruct (vkStatus dev ((l ++ [vkCreateSemaphore (device dev)])
                            ++ [vkCreateSemaphore (device dev)]) =? VK_SUCCESS) eqn:E2;
    cbn [negb this log].
  2:{ split; [done|]. exists 2%nat. apply Z.eqb_neq in E2. apply Z.eqb_eq in E1.
      rewrite <- app_assoc in *.
      split; [lia|]. split; [done|]. split; [done|].
      intros j Hj. by replace j with 1%nat by lia. }
  destruct (vkStatus dev (((l ++ [vkCreateSemaphore (device dev)])
                             ++ [vkCreateSemaphore (device dev)])
                            ++ [vkCreateFence (device dev) VK_FENCE_CREATE_SIGNALED_BIT])
            =? VK_SUCCESS) eqn:E3;
    cbn [negb this log].
  2:{ split; [done|]. exists 3%nat.
      apply Z.eqb_neq in E3. apply Z.eqb_eq in E1, E2.
      rewrite <- !app_assoc in *.
      split; [lia|]. split; [done|]. split; [done|]. intros j Hj.
      assert (j = 1 ∨ j = 2)%nat as [-> | ->] by lia; done. }
  apply Z.eqb_eq in E1, E2, E3. rewrite <- !app_assoc in *.
  split; [done|]. intros k Hk.
  assert (k = 1 ∨ k = 2 ∨ k = 3)%nat as [-> | [-> | ->]] by lia; done.
Qed.

Lemma body_keeps_chain (dev : EngineDevice) (i : Z) :
  keeps same_chain (createSyncObjects_body dev i).
Proof. unfold createSyncObjects_body. keeps_tac; done. Qed.

Lemma syncCreates_S (dev : EngineDevice) (n : nat) :
  syncCreates dev (S n) = syncCreates1 dev ++ syncCreates dev n.
Proof. reflexivity. Qed.

(** The loop, whatever the driver answers. *)
Lemma for_createSyncObjects_body_cases (dev : EngineDevice) (n : nat) (i : Z)
    (w : World EngineSwapChain) :
  match for_ n i (createSyncObjects_body dev) w with
  | Ok _ w' =>
      log w' = log w ++ syncCreates dev n ∧
      ∀ k : nat, (1 ≤ k ≤ 3 * n)%nat →
        vkStatus dev (log w ++ take k (syncCreates dev n)) = VK_SUCCESS
  | Throw what w' =>
      what = "failed to create synchronization objects for a frame"%string ∧
      ∃ k : nat, (1 ≤ k ≤ 3 * n)%nat ∧
        log w' = log w ++ take k (syncCreates dev n) ∧
        vkStatus dev (log w') ≠ VK_SUCCESS ∧
        ∀ j : nat, (1 ≤ j < k)%nat →
          vkStatus dev (log w ++ take j (syncCreates dev n)) = VK_SUCCESS
  | UB => False
  end.
Proof.
  revert i w. induction n as [|n IH]; intros i w.
  - simpl. split; [by rewrite app_nil_r|]. intros k Hk. lia.
  - cbn [for_]. unfold mbind, M_bind.
    pose proof (createSyncObjects_body_cases dev i w) as Hbody.
    destruct (createSyncObjects_body dev i w) as [[] w1|what w1|]; [| |done].
    + destruct Hbody as [Hlog1 Hok1]. specialize (IH (i + 1) w1).
      assert (∀ j : nat, (1 ≤ j)%nat →
                log w ++ take j (syncCreates dev (S n))
                = if decide (j ≤ 3)%nat then log w ++ take j (syncCreates1 dev)
                  else log w1 ++ take (j - 3) (syncCreates dev n)) as Htake.
      { intros j Hj. rewrite syncCreates_S. case_decide.
        - by rewrite take_app_le by (simpl; lia).
        - rewrite take_app_ge by (simpl; lia). rewrite Hlog1, <- app_assoc. done. }
      destruct (for_ n (i + 1) (createSyncObjects_body dev) w1) as [[] w2|what w2|];
        [| |done].
      * destruct IH as [Hlog Hok]. split.
        { by rewrite Hlog, Hlog1, syncCreates_S, <- app_assoc. }
        intros k Hk. rewrite Htake by lia. case_decide; [apply Hok1; lia|apply Hok; lia].
      * destruct IH as (-> & k & Hk & Hlog & Hfail & Hbefore). split; [done|].
        exists (3 + k)%nat. split; [lia|]. split.
        { rewrite Htake by lia. case_decide; [lia|].
          by replace (3 + k - 3)%nat with k by lia. }
        split; [done|]. intros j Hj. rewrite Htake by lia.
        case_decide; [apply Hok1; lia|apply Hbefore; lia].
    + destruct Hbody as (-> & k & Hk & Hlog & Hfail & Hbefore). split; [done|].
      exists k. split; [lia|]. rewrite syncCreates_S. split.
      { by rewrite take_app_le by (simpl; lia). }
      split; [done|]. intros j Hj. rewrite take_app_le by (simpl; lia). by apply Hbefore.
Qed.

(** X4. [createSyncObjects] creates, for each frame in flight in turn, a
    semaphore, a semaphore and a fence in the signaled state. It is never
    undefined; it throws at the first creation the driver fails, having
    issued no creation after it, and returns only when every creation
    succeeded, with the three vectors sized to the number of frames in
    flight and the fence table sized to the image count. *)
Theorem createSyncObjects_stops_at_first_failure (N : Z) (dev : EngineDevice)
    (w : World EngineSwapChain) :
  match createSyncObjects N dev w with
  | Ok _ w' =>
      log w' = log w ++ syncCreates dev (Z.to_nat N) ∧ sized N (this w') ∧
      ∀ k : nat, (1 ≤ k ≤ 3 * Z.to_nat N)%nat →
        vkStatus dev (log w ++ take k (syncCreates dev (Z.to_nat N))) = VK_SUCCESS
  | Throw what w' =>
      what = "failed to create synchronization objects for a frame"%string ∧
      ∃ k : nat, (1 ≤ k ≤ 3 * Z.to_nat N)%nat ∧
        log w' = log w ++ take k (syncCreates dev (Z.to_nat N)) ∧
        vkStatus dev (log w') ≠ VK_SUCCESS ∧
        ∀ j : nat, (1 ≤ j < k)%nat →
          vkStatus dev (log w ++ take j (syncCreates dev (Z.to_nat N))) = VK_SUCCESS
  | UB => False
  end.
Proof.
  pose proof (createSyncObjects_sized N dev w) as Hsized.
  destruct w as [s l]. unfold createSyncObjects in *. cbv zeta in *.
  unfold mbind, M_bind, modify in *. cbn [this log] in *.
  match goal with
  | |- context [for_ ?n ?i ?body ?w0] =>
      pose proof (for_createSyncObjects_body_cases dev n i w0) as Hfor;
      destruct (for_ n i body w0) as [[] w'|what w'|]; [| |done]
  end.
  - destruct Hfor as [Hlog Hok]. done.
  - done.
Qed.

(** What a call of [createSyncObjects] that returned has done. *)
Lemma createSyncObjects_Ok_inv (N : Z) (dev : EngineDevice) (w w' : World EngineSwapChain) :
  createSyncObjects N dev w = Ok () w' →
  log w' = log w ++ syncCreates dev (Z.to_nat N) ∧
  sized N (this w') ∧
  imagesInFlight (this w')
    = resize (Z.to_nat (imageCount (this w))) VK_NULL_HANDLE (imagesInFlight (this w)) ∧
  same_surface (this w) (this w') ∧
  oldSwapchain (this w') = oldSwapchain (this w) ∧
  currentFrame (this w') = currentFrame (this w).
Proof.
  intros H.
  pose proof (createSyncObjects_sized N dev w) as Hsized. rewrite H in Hsized.
  split; [|split; [done|]].
  - destruct w as [s l]. unfold createSyncObjects in H. cbv zeta in H.
    unfold mbind, M_bind, modify in H. cbn [this log] in H.
    match type of H with
    | for_ ?n ?i ?body ?w0 = _ =>
        pose proof (for_createSyncObjects_body_cases dev n i w0) as Hfor
    end.
    rewrite H in Hfor. by destruct Hfor as [Hlog _].
  - destruct w as [s l]. unfold createSyncObjects in H. cbv zeta in H.
    unfold mbind, M_bind, modify in H. cbn [this log] in H.
    match type of H with
    | for_ ?n ?i ?body ?w0 = _ =>
        pose proof (keeps_for same_chain n i body (body_keeps_chain dev) w0) as Hchain
    end.
    rewrite H in Hchain. destruct Hchain as (?&?&?&?&?&?&?&?&?). simpl in *.
    unfold same_surface. repeat split; congruence.
Qed.

(** X5. No construction returns. Line 109 of [init] copies
    [swapProperties] from the reference that [getAttachmentProperties]
    returns, a reference to that function's own local: reading it is
    undefined. So [init] never returns, whatever the device and the
    window: it is undefined or it has thrown before line 109. Both
    constructors call [init] first, so they never return either, and
    when one throws it is [init] that threw, leaving the same object and
    log: [createSyncObjects] is not reached. *)
Theorem new_EngineSwapChain_never_returns (N : Z) (dev : EngineDevice)
    (windowExtent : VkExtent2D) (previous : option EngineSwapChain) (l : list Call) :
  (∀ (s : EngineSwapChain) (w : World EngineSwapChain),
     read (getAttachmentProperties s) w = UB) ∧
  (∀ w w' : World EngineSwapChain, init dev windowExtent w ≠ Ok () w') ∧
  match new_EngineSwapChain N dev windowExtent previous l with
  | Ok _ _ => False
  | Throw what w' => init dev windowExtent (mkWorld (fresh previous) l) = Throw what w'
  | UB => True
  end.
Proof.
  split; [done|]. split.
  - intros w w'. rewrite init_after_swapchain. by destruct (init_swapchain _ _ _).
  - unfold new_EngineSwapChain, EngineSwapChain_ctor.
    unfold mbind at 1, M_bind at 1. rewrite init_after_swapchain.
    by destruct (init_swapchain _ _ _).
Qed.

(** X6. Where lines 52 to 108 of [init] complete, they have stored the
    selections: [imageFormat] is the format of the chosen surface
    format, [depthFormat] the depth and stencil format found, [extent]
    the chosen extent, [swapchain] the handle the driver wrote and
    [imageCount] the number of images the driver handed out, which are
    the images collected; the attachment pointer, the previous chain,
    the semaphores, the fences, the fence table and the slot are as they
    were; and the calls issued are, in order, the line on [std::cout],
    the chain creation, which succeeded, and the two image queries, the
    first with the count asked for. *)
Theorem init_swapchain_result (dev : EngineDevice) (windowExtent : VkExtent2D)
    (w w1 : World EngineSwapChain) (swapImages : list handle) :
  init_swapchain dev windowExtent w = Ok swapImages w1 →
  (∃ surfaceFormat,
     chooseSwapSurfaceFormat (formats (getSwapChainSupport dev)) = Some surfaceFormat ∧
     imageFormat (this w1) = format surfaceFormat) ∧
  findDepthFormat dev true = Some (depthFormat (this w1)) ∧
  extent (this w1)
    = chooseSwapExtent (capabilities (getSwapChainSupport dev)) windowExtent ∧
  swapImages = vkSwapchainImages dev ∧
  imageCount (this w1) = Z.of_nat (length (vkSwapchainImages dev)) ∧
  (swapchainAttachment (this w1) = swapchainAttachment (this w) ∧
   oldSwapchain (this w1) = oldSwapchain (this w) ∧
   imageAvailableSemaphores (this w1) = imageAvailableSemaphores (this w) ∧
   renderFinishedSemaphores (this w1) = renderFinishedSemaphores (this w) ∧
   inFlightFences (this w1) = inFlightFences (this w) ∧
   imagesInFlight (this w1) = imagesInFlight (this w) ∧
   currentFrame (this w1) = currentFrame (this w)) ∧
  ∃ createInfo,
    let l1 := log w ++ [cout (chooseSwapPresentMode
                                (presentModes (getSwapChainSupport dev))).1;
                        vkCreateSwapchainKHR (device dev) createInfo] in
    vkStatus dev l1 = VK_SUCCESS ∧
    swapchain (this w1) = vkOutHandle dev l1 ∧
    log w1 = l1 ++ [vkGetSwapchainImagesKHR (device dev) (swapchain (this w1))
                      (specImageCount (capabilities (getSwapChainSupport dev))) true;
                    vkGetSwapchainImagesKHR (device dev) (swapchain (this w1))
                      (Z.of_nat (length (vkSwapchainImages dev))) false].
Proof.
  intros H.
  destruct (init_swapchain_Ok_inv _ _ _ _ _ H) as (surfaceFormat & depth & Hfmt & Hdepth).
  destruct w as [s l].
  rewrite (init_swapchain_explicit _ _ _ _ _ _ Hfmt Hdepth) in H. cbv zeta in H.
  destruct (negb (vkStatus dev _ =? VK_SUCCESS)) eqn:Hst; [done|].
  apply negb_false_iff, Z.eqb_eq in Hst.
  injection H as <- <-. cbn [this log].
  split. { exists surfaceFormat. split; [done|]. by destruct s. }
  split. { rewrite Hdepth. by destruct s. }
  split. { by destruct s. }
  split; [done|]. split. { by destruct s. }
  split. { by destruct s. }
  eexists. cbv zeta. split; [exact Hst|]. split; by destruct s.
Qed.

(** The selections on the demo device, from the default member
    initialisers. *)
Lemma init_swapchain_result_witness :
  ∃ w1,
    init_swapchain (demoDevice VK_SUCCESS VK_SUCCESS) demoExtent (mkWorld (fresh None) [])
      = Ok [11; 12; 13] w1 ∧
    findDepthFormat (demoDevice VK_SUCCESS VK_SUCCESS) true = Some (depthFormat (this w1)) ∧
    extent (this w1) = chooseSwapExtent (capabilities demoSupport) demoExtent ∧
    imageCount (this w1) = 3 ∧
    length (log w1) = 4%nat.
Proof.
  assert (∃ w1, init_swapchain (demoDevice VK_SUCCESS VK_SUCCESS) demoExtent
                  (mkWorld (fresh None) []) = Ok [11; 12; 13] w1) as [w1 Hrun]
    by (eexists; vm_compute; reflexivity).
  destruct (init_swapchain_result _ _ _ _ _ Hrun)
    as (_ & Hdf & Hex & _ & Hic & _ & createInfo & _ & _ & Hlog).
  exists w1. split; [exact Hrun|]. split; [exact Hdf|]. split; [exact Hex|].
  split; [exact Hic|]. rewrite Hlog. reflexivity.
Defined.

(** X7. The chain a construction asks for, on a device that offers a
    surface format and a depth format: the creation is the second call
    [init] issues, whatever the driver then answers; it names the
    previous instance's chain as [oldSwapchain] when there is a previous
    instance and the null handle when there is none; it shares the
    images between the two queue families, listing both, exactly when
    the graphics and the present family differ, and is exclusive with no
    family listed otherwise; it asks for one array layer,
    colour-attachment usage, opaque alpha, clipping and the surface's
    current transform, with the chosen present mode, surface format,
    colour space and extent and the image count of C7. *)
Theorem init_swapchain_request (dev : EngineDevice) (windowExtent : VkExtent2D)
    (previous : option EngineSwapChain) (l : list Call)
    (surfaceFormat : VkSurfaceFormatKHR) (depth : VkFormat) :
  chooseSwapSurfaceFormat (formats (getSwapChainSupport dev)) = Some surfaceFormat →
  findDepthFormat dev true = Some depth →
  ∃ createInfo,
    log (world_after (init_swapchain dev windowExtent (mkWorld (fresh previous) l))
           (mkWorld (fresh previous) l)) !! S (length l)
      = Some (vkCreateSwapchainKHR (device dev) createInfo) ∧
    VkSwapchainCreateInfoKHR.oldSwapchain createInfo
      = from_option swapchain VK_NULL_HANDLE previous ∧
    (graphicsFamily (findPhysicalQueueFamilies dev)
       ≠ presentFamily (findPhysicalQueueFamilies dev) →
     VkSwapchainCreateInfoKHR.imageSharingMode createInfo = VK_SHARING_MODE_CONCURRENT ∧
     VkSwapchainCreateInfoKHR.queueFamilyIndexCount createInfo = 2 ∧
     VkSwapchainCreateInfoKHR.pQueueFamilyIndices createInfo
       = [graphicsFamily (findPhysicalQueueFamilies dev);
          presentFamily (findPhysicalQueueFamilies dev)]) ∧
    (graphicsFamily (findPhysicalQueueFamilies dev)
       = presentFamily (findPhysicalQueueFamilies dev) →
     VkSwapchainCreateInfoKHR.imageSharingMode createInfo = VK_SHARING_MODE_EXCLUSIVE ∧
     VkSwapchainCreateInfoKHR.queueFamilyIndexCount createInfo = 0 ∧
     VkSwapchainCreateInfoKHR.pQueueFamilyIndices createInfo = []) ∧
    VkSwapchainCreateInfoKHR.surface createInfo = surface dev ∧
    VkSwapchainCreateInfoKHR.imageArrayLayers createInfo = 1 ∧
    VkSwapchainCreateInfoKHR.imageUsage createInfo = VK_IMAGE_USAGE_COLOR_ATTACHMENT_BIT ∧
    VkSwapchainCreateInfoKHR.compositeAlpha createInfo = VK_COMPOSITE_ALPHA_OPAQUE_BIT_KHR ∧
    VkSwapchainCreateInfoKHR.clipped createInfo = true ∧
    VkSwapchainCreateInfoKHR.preTransform createInfo
      = currentTransform (capabilities (getSwapChainSupport dev)) ∧
    VkSwapchainCreateInfoKHR.presentMode createInfo
      = (chooseSwapPresentMode (presentModes (getSwapChainSupport dev))).2 ∧
    VkSwapchainCreateInfoKHR.imageFormat createInfo = format surfaceFormat ∧
    VkSwapchainCreateInfoKHR.imageColorSpace createInfo = colorSpace surfaceFormat ∧
    VkSwapchainCreateInfoKHR.imageExtent createInfo
      = chooseSwapExtent (capabilities (getSwapChainSupport dev)) windowExtent ∧
    VkSwapchainCreateInfoKHR.minImageCount createInfo
      = specImageCount (capabilities (getSwapChainSupport dev)).
Proof.
  intros Hfmt Hdepth.
  rewrite (init_swapchain_explicit _ _ _ _ _ _ Hfmt Hdepth). cbv zeta.
  eexists. split.
  { destruct (negb (vkStatus dev _ =? VK_SUCCESS)); cbn [world_after log].
    - rewrite lookup_app_r by lia.
      replace (S (length l) - length l)%nat with 1%nat by lia. reflexivity.
    - rewrite <- app_assoc. rewrite lookup_app_r by lia.
      replace (S (length l) - length l)%nat with 1%nat by lia. reflexivity. }
  split. { simpl. by destruct previous. }
  unfold createInfo_of. cbn.
  split. { intros Hne. apply Z.eqb_neq in Hne. by rewrite Hne. }
  split. { intros Heq. apply Z.eqb_eq in Heq. by rewrite Heq. }
  repeat split; reflexivity.
Qed.

(** Recreation on the demo device, whose two queues are of one family,
    with a previous instance whose chain is 77. *)
Lemma init_swapchain_request_witness :
  ∃ createInfo,
    log (world_after
           (init_swapchain (demoDevice VK_SUCCESS VK_SUCCESS) demoExtent
              (mkWorld (fresh (Some (set_swapchain 77 demoSwapChain))) []))
           (mkWorld (fresh (Some (set_swapchain 77 demoSwapChain))) [])) !! 1%nat
      = Some (vkCreateSwapchainKHR 1 createInfo) ∧
    VkSwapchainCreateInfoKHR.oldSwapchain createInfo = 77 ∧
    VkSwapchainCreateInfoKHR.imageSharingMode createInfo = VK_SHARING_MODE_EXCLUSIVE.
Proof.
  destruct (init_swapchain_request (demoDevice VK_SUCCESS VK_SUCCESS) demoExtent
              (Some (set_swapchain 77 demoSwapChain)) []
              preferredSurfaceFormat VK_FORMAT_D24_UNORM_S8_UINT)
    as (createInfo & Hcall & Hold & _ & Hexclusive & _); [vm_compute; reflexivity..|].
  exists createInfo. split; [exact Hcall|]. split; [exact Hold|].
  apply Hexclusive. reflexivity.
Defined.

(** X8. How construction ends. With no surface format offered the read
    of the first format is out of bounds and construction is undefined.
    When the driver fails the chain creation, construction throws "failed
    to create swap chain!" having issued nothing after that call: no
    image query, no semaphore, no fence. When the chain is created,
    lines 106 to 108 query its images and construction is then
    undefined, at line 109. *)
Theorem new_EngineSwapChain_failures (N : Z) (dev : EngineDevice) (windowExtent : VkExtent2D)
    (previous : option EngineSwapChain) (l : list Call) :
  (formats (getSwapChainSupport dev) = [] →
     new_EngineSwapChain N dev windowExtent previous l = UB) ∧
  (∀ surfaceFormat depth,
     chooseSwapSurfaceFormat (formats (getSwapChainSupport dev)) = Some surfaceFormat →
     findDepthFormat dev true = Some depth →
     let said := chooseSwapPresentMode (presentModes (getSwapChainSupport dev)) in
     let s1 := selected dev windowExtent surfaceFormat depth (fresh previous) in
     let l1 := l ++ [cout said.1;
                     vkCreateSwapchainKHR (device dev)
                       (createInfo_of dev surfaceFormat said.2 s1)] in
     let l2 := l1 ++ [vkGetSwapchainImagesKHR (device dev) (vkOutHandle dev l1)
                        (specImageCount (capabilities (getSwapChainSupport dev))) true;
                      vkGetSwapchainImagesKHR (device dev) (vkOutHandle dev l1)
                        (Z.of_nat (length (vkSwapchainImages dev))) false] in
     (vkStatus dev l1 ≠ VK_SUCCESS →
        ∃ w', new_EngineSwapChain N dev windowExtent previous l
                = Throw "failed to create swap chain!" w' ∧
              log w' = l1) ∧
     (vkStatus dev l1 = VK_SUCCESS →
        (∃ w1, init_swapchain dev windowExtent (mkWorld (fresh previous) l)
                 = Ok (vkSwapchainImages dev) w1 ∧
               log w1 = l2) ∧
        new_EngineSwapChain N dev windowExtent previous l = UB)).
Proof.
  split.
  - intros Hnone.
    unfold new_EngineSwapChain, EngineSwapChain_ctor, init, init_swapchain. cbv zeta.
    rewrite Hnone. reflexivity.
  - intros surfaceFormat depth Hfmt Hdepth. cbv zeta.
    pose proof (init_swapchain_explicit dev windowExtent (fresh previous) l _ _ Hfmt Hdepth)
      as Hsteps.
    pose proof (init_after_swapchain dev windowExtent (mkWorld (fresh previous) l))
      as Hinit.
    cbv zeta in Hsteps. split; intros Hst.
    + apply Z.eqb_neq in Hst. rewrite Hst in Hsteps. cbn [negb] in Hsteps.
      rewrite Hsteps in Hinit. eexists. split.
      { unfold new_EngineSwapChain, EngineSwapChain_ctor.
        by rewrite (bind_Throw _ _ _ _ _ Hinit). }
      reflexivity.
    + rewrite Hst, Z.eqb_refl in Hsteps. cbn [negb] in Hsteps.
      rewrite Hsteps in Hinit. split.
      * eexists. split; [exact Hsteps|]. reflexivity.
      * unfold new_EngineSwapChain, EngineSwapChain_ctor.
        unfold mbind at 1, M_bind at 1. by rewrite Hinit.
Qed.

(** Construction on the demo device: with a driver that loses the
    device at the chain creation it throws after two calls; with the
    driver that creates the chain it is undefined. *)
Lemma new_EngineSwapChain_failures_witness :
  (∃ w', new_EngineSwapChain 2 (withFailing (demoDevice VK_SUCCESS VK_SUCCESS)
                                  isCreateSwapchain) demoExtent None []
           = Throw "failed to create swap chain!" w' ∧
         length (log w') = 2%nat) ∧
  new_EngineSwapChain 2 (demoDevice VK_SUCCESS VK_SUCCESS) demoExtent None [] = UB.
Proof.
  split.
  - destruct (proj2 (new_EngineSwapChain_failures 2
                       (withFailing (demoDevice VK_SUCCESS VK_SUCCESS) isCreateSwapchain)
                       demoExtent None [])
                preferredSurfaceFormat VK_FORMAT_D24_UNORM_S8_UINT)
      as [Hchain _]; [vm_compute; reflexivity..|].
    destruct Hchain as (w' & Hthrow & Hlog); [vm_compute; discriminate|].
    exists w'. split; [exact Hthrow|]. rewrite Hlog. reflexivity.
  - destruct (proj2 (new_EngineSwapChain_failures 2 (demoDevice VK_SUCCESS VK_SUCCESS)
                       demoExtent None [])
                preferredSurfaceFormat VK_FORMAT_D24_UNORM_S8_UINT)
      as [_ Hcreated]; [vm_compute; reflexivity..|].
    apply Hcreated. vm_compute; reflexivity.
Defined.

(** ** Along the life of a swapchain *)

Lemma exec_keeps_object (N : Z) (dev : EngineDevice) (op : Op) :
  isSubmit op = false → keeps eq (exec N dev op).
Proof.
  destruct op; [|done| |]; intros _; unfold exec, acquireNextImage, getSwapchainAttachment.
  all: keeps_tac; done.
Qed.

Lemma insert_table_aliases (s : EngineSwapChain) (i : nat) (fence : handle) (frame : Z) :
  table_aliases s → fence ∈ inFlightFences s →
  table_aliases (set_imagesInFlight (<[i:=fence]> (imagesInFlight s)) s) ∧
  table_aliases
    (set_currentFrame frame (set_imagesInFlight (<[i:=fence]> (imagesInFlight s)) s)).
Proof.
  intros Htable Hfence.
  assert (∀ f : handle, f ∈ <[i:=fence]> (imagesInFlight s) →
            f = VK_NULL_HANDLE ∨ f ∈ inFlightFences s) as H.
  { intros f Hin. apply list_elem_of_lookup in Hin as [j Hj].
    apply list_lookup_insert_Some in Hj as [(_ & <- & _)|[_ Hj]]; [by right|].
    apply Htable. by eapply list_elem_of_lookup_2. }
  split; intros f Hin; destruct s; exact (H f Hin).
Qed.

Lemma exec_table_aliases (N : Z) (dev : EngineDevice) (op : Op)
    (w : World EngineSwapChain) :
  table_aliases (this w) →
  match exec N dev op w with
  | Ok _ w' | Throw _ w' => table_aliases (this w')
  | UB => True
  end.
Proof.
  intros Htable. destruct (isSubmit op) eqn:Hop.
  - destruct op; try done. simpl. unfold mbind, M_bind.
    destruct (submitCommandBuffers N dev buffers imageIndex w) as [r w'|what w'|] eqn:E;
      simpl; [| |done].
    all: destruct (submitCommandBuffers_reads N dev buffers imageIndex w)
           as (owner & fence & available & finished & Ho & Hf & Ha & Hr); [by rewrite E|].
    all: rewrite (submitCommandBuffers_steps _ _ _ _ _ _ _ _ _ Ho Hf Ha Hr) in E;
      cbv zeta in E; destruct (negb _); simplify_eq; cbn [this log].
    all: apply insert_table_aliases; [done|by eapply list_elem_of_lookup_2].
  - pose proof (exec_keeps_object N dev op Hop w) as H.
    destruct (exec _ _ _ _); [| |done]; by rewrite <- H.
Qed.

Lemma run_table_aliases (N : Z) (dev : EngineDevice) (k : nat)
    (w w' : World EngineSwapChain) :
  run N dev k w w' → table_aliases (this w) → table_aliases (this w').
Proof.
  induction 1 as [w|op w w1 w2 k Hexec Hrun IH|op what w w1 w2 k Hexec Hrun IH];
    intros Htable; [done| |].
  - apply IH. pose proof (exec_table_aliases N dev op w Htable) as H. by rewrite Hexec in H.
  - apply IH. pose proof (exec_table_aliases N dev op w Htable) as H. by rewrite Hexec in H.
Qed.

(** X9. [createSyncObjects], called on an object whose fence table is
    still empty, leaves a table of null handles with one entry per
    image. From an object whose table entries are each null or one of
    the slots' own fences, every state reached by operations that return
    or throw is such an object again; the table keeps its length; and
    the semaphores, the fences, the chain handle, the formats, the
    extent, the image count and the attachment never change. *)
Theorem fence_table_aliases_slot_fences (N : Z) (dev : EngineDevice) :
  (∀ w w0 : World EngineSwapChain,
     imagesInFlight (this w) = [] →
     createSyncObjects N dev w = Ok () w0 →
     imagesInFlight (this w0)
       = replicate (Z.to_nat (imageCount (this w))) VK_NULL_HANDLE ∧
     table_aliases (this w0)) ∧
  (∀ (w0 w : World EngineSwapChain) (k : nat),
     table_aliases (this w0) →
     run N dev k w0 w →
     table_aliases (this w) ∧
     same_resources (this w0) (this w) ∧
     length (imagesInFlight (this w)) = length (imagesInFlight (this w0))).
Proof.
  split.
  - intros w w0 Hempty Hsync.
    destruct (createSyncObjects_Ok_inv _ _ _ _ Hsync) as (_ & _ & Htable & _).
    rewrite Hempty, resize_nil in Htable. split; [exact Htable|].
    intros f Hin. left. rewrite Htable in Hin.
    by apply elem_of_replicate in Hin as [-> _].
  - intros w0 w k Htable Hrun. split; [|split].
    + by apply (run_table_aliases _ _ _ _ _ Hrun).
    + exact (run_keeps same_resources N dev k w0 w (exec_keeps_resources N dev) Hrun).
    + by pose proof (run_keeps same_shape N dev k w0 w (exec_keeps_shape N dev) Hrun)
        as (_ & _ & _ & <- & _).
Qed.

Lemma demo_run (presentStatus : VkResult) :
  run 2 (demoDevice VK_SUCCESS presentStatus) 2
    demoWorld0 (demoWorld2 VK_SUCCESS presentStatus).
Proof.
  apply (run_returned 2 _ (SubmitCommandBuffers [7] 0) _
           (demoWorld1 VK_SUCCESS presentStatus) _ 1).
  { vm_compute; reflexivity. }
  apply (run_returned 2 _ (SubmitCommandBuffers [8] 1) _
           (demoWorld2 VK_SUCCESS presentStatus) _ 0).
  { vm_compute; reflexivity. }
  apply run_done.
Qed.

(** Two frames on the demo swapchain: images 0 and 1 are then owned by
    the fences 107 and 110 of the two slots, image 2 by none. *)
Lemma fence_table_aliases_slot_fences_witness :
  table_aliases (this (demoWorld2 VK_SUCCESS VK_SUCCESS)) ∧
  imagesInFlight (this (demoWorld2 VK_SUCCESS VK_SUCCESS)) = [107; 110; VK_NULL_HANDLE] ∧
  inFlightFences (this (demoWorld2 VK_SUCCESS VK_SUCCESS)) = [107; 110].
Proof.
  destruct (proj2 (fence_table_aliases_slot_fences 2 (demoDevice VK_SUCCESS VK_SUCCESS))
              demoWorld0 (demoWorld2 VK_SUCCESS VK_SUCCESS) 2%nat)
    as (Htable & _ & _).
  - intros f Hin. left.
    repeat (apply elem_of_cons in Hin as [->|Hin]; [reflexivity|]).
    by apply elem_of_nil in Hin.
  - apply demo_run.
  - split; [exact Htable|]. split; reflexivity.
Defined.

Lemma submitCommandBuffers_out_of_bounds (N : Z) (dev : EngineDevice) (buffers : list handle)
    (imageIndex : Z) (w : World EngineSwapChain) :
  imagesInFlight (this w) !! Z.to_nat imageIndex = None →
  submitCommandBuffers N dev buffers imageIndex w = UB.
Proof.
  intros Ho. destruct w as [s l]. cbn [this log] in *.
  unfold submitCommandBuffers, index, mbind, M_bind, get_this, modify, issue, vk. simpl.
  rewrite Ho. done.
Qed.

(** X10. [submitCommandBuffers] uses the image index unchecked. On
    every state reached from an object whose vectors are sized and whose
    slot is in range, the call with an index that is not negative is
    undefined exactly when the index is not below [imageCount]; for
    every smaller index it returns or throws. *)
Theorem submitCommandBuffers_undefined_iff_out_of_range (N : Z) (dev : EngineDevice)
    (w0 w : World EngineSwapChain) (k : nat) :
  0 < N → N ≤ UINT64_MAX →
  wf N (this w0) →
  run N dev k w0 w →
  ∀ buffers imageIndex, 0 ≤ imageIndex →
    (submitCommandBuffers N dev buffers imageIndex w = UB
     ↔ imageCount (this w0) ≤ imageIndex).
Proof.
  intros Hpos Hmax Hwf0 Hrun buffers imageIndex Hidx.
  pose proof (run_wf N Hpos Hmax dev k w0 w Hrun Hwf0) as Hwf.
  destruct (wf_lookups N Hpos _ Hwf) as (fence & available & finished & Hf & Ha & Hr).
  pose proof (run_keeps same_shape N dev k w0 w (exec_keeps_shape N dev) Hrun)
    as (_ & _ & _ & _ & Hcount).
  destruct Hwf as [(_ & _ & _ & Hlen) _]. rewrite Hcount. split.
  - intros Hub.
    destruct (imagesInFlight (this w) !! Z.to_nat imageIndex) as [owner|] eqn:Ho.
    + rewrite (submitCommandBuffers_steps _ _ _ _ _ _ _ _ _ Ho Hf Ha Hr) in Hub.
      cbv zeta in Hub. by destruct (negb _).
    + apply lookup_ge_None in Ho. lia.
  - intros Hge. apply submitCommandBuffers_out_of_bounds, lookup_ge_None. lia.
Qed.

(** The demo swapchain has three images: after two frames a submission
    for image 3 is undefined, one for image 2 is not. *)
Lemma submitCommandBuffers_undefined_iff_out_of_range_witness :
  submitCommandBuffers 2 (demoDevice VK_SUCCESS VK_SUCCESS) [9] 3
    (demoWorld2 VK_SUCCESS VK_SUCCESS) = UB ∧
  submitCommandBuffers 2 (demoDevice VK_SUCCESS VK_SUCCESS) [9] 2
    (demoWorld2 VK_SUCCESS VK_SUCCESS) ≠ UB.
Proof.
  pose proof (submitCommandBuffers_undefined_iff_out_of_range 2
                (demoDevice VK_SUCCESS VK_SUCCESS) demoWorld0
                (demoWorld2 VK_SUCCESS VK_SUCCESS) 2%nat
                ltac:(lia) ltac:(unfold UINT64_MAX; lia) demoWorld0_wf
                (demo_run VK_SUCCESS)) as Hsubmit.
  split.
  - apply Hsubmit; [lia|]. by vm_compute.
  - intros Hub. apply Hsubmit in Hub; [|lia]. by vm_compute in Hub.
Defined.

(** ** One frame *)

(** X11. Within one frame the slot's objects are handed from call to
    call: the fence [acquireNextImage] waits for, the current slot's
    entry of [inFlightFences], is the fence [submitCommandBuffers]
    resets and passes to the queue; the semaphore the acquisition
    signals, the slot's entry of [imageAvailableSemaphores], is the one
    the submission waits for; and the semaphore the submission signals,
    the slot's entry of [renderFinishedSemaphores], is the one the
    presentation waits for. Before the reset the submission waits for
    the fence the table holds for the image, when that entry is not
    null, and for nothing otherwise. *)
Theorem frame_hands_over (N : Z) (dev : EngineDevice) (buffers : list handle)
    (imageIndex written : Z) (w : World EngineSwapChain) :
  0 < N → wf N (this w) → 0 ≤ imageIndex < imageCount (this w) →
  ∃ (owner fence available finished : handle) r w1,
    imagesInFlight (this w) !! Z.to_nat imageIndex = Some owner ∧
    inFlightFences (this w) !! Z.to_nat (currentFrame (this w)) = Some fence ∧
    imageAvailableSemaphores (this w) !! Z.to_nat (currentFrame (this w))
      = Some available ∧
    renderFinishedSemaphores (this w) !! Z.to_nat (currentFrame (this w))
      = Some finished ∧
    acquireNextImage dev written w = Ok r w1 ∧
    log w1 = log w ++ [vkWaitForFences (device dev) [fence] true UINT64_MAX;
                       vkAcquireNextImageKHR (device dev) (swapchain (this w)) UINT64_MAX
                         available VK_NULL_HANDLE] ∧
    let waits := if decide (owner = VK_NULL_HANDLE) then []
                 else [vkWaitForFences (device dev) [owner] true UINT64_MAX] in
    match submitCommandBuffers N dev buffers imageIndex w1 with
    | Ok _ w2 =>
        log w2 = log w1 ++ waits ++
                 [vkResetFences (device dev) [fence];
                  vkQueueSubmit (graphicsQueue dev)
                    (submitInfo_of available finished buffers) fence;
                  vkQueuePresentKHR (presentQueue dev)
                    (presentInfo_of finished (swapchain (this w)) imageIndex)]
    | Throw _ w2 =>
        log w2 = log w1 ++ waits ++
                 [vkResetFences (device dev) [fence];
                  vkQueueSubmit (graphicsQueue dev)
                    (submitInfo_of available finished buffers) fence]
    | UB => False
    end.
Proof.
  intros Hpos Hwf Hidx.
  destruct (wf_lookups N Hpos _ Hwf) as (fence & available & finished & Hf & Ha & Hr).
  destruct (wf_image N _ imageIndex Hwf Hidx) as [owner Ho].
  exists owner, fence, available, finished.
  rewrite (acquireNextImage_steps _ _ _ _ _ Hf Ha). cbv zeta.
  eexists _, (mkWorld _ _). do 4 (split; [done|]).
  split; [reflexivity|]. split; [reflexivity|].
  rewrite (submitCommandBuffers_steps N dev buffers imageIndex (mkWorld _ _)
             owner fence available finished Ho Hf Ha Hr).
  cbv zeta. cbn [this log].
  assert ((if negb (owner =? VK_NULL_HANDLE)
           then [vkWaitForFences (device dev) [owner] true UINT64_MAX] else [])
          = (if decide (owner = VK_NULL_HANDLE) then []
             else [vkWaitForFences (device dev) [owner] true UINT64_MAX])) as ->.
  { destruct (decide (owner = VK_NULL_HANDLE)) as [->|Hne]; [done|].
    apply Z.eqb_neq in Hne. by rewrite Hne. }
  destruct (negb (vkStatus dev _ =? _)); cbn [log].
  - reflexivity.
  - by rewrite <- !app_assoc.
Qed.

(** The second frame of the demo swapchain on image 0, which the first
    frame's fence 107 owns: the acquisition waits for the second slot's
    fence 110, and the submission that follows is defined. *)
Lemma frame_hands_over_witness :
  ∃ r w1,
    acquireNextImage (demoDevice VK_SUCCESS VK_SUCCESS) 0 (demoWorld1 VK_SUCCESS VK_SUCCESS)
      = Ok r w1 ∧
    log w1 = log (demoWorld1 VK_SUCCESS VK_SUCCESS)
             ++ [vkWaitForFences 1 [110] true UINT64_MAX;
                 vkAcquireNextImageKHR 1 102 UINT64_MAX 108 VK_NULL_HANDLE] ∧
    submitCommandBuffers 2 (demoDevice VK_SUCCESS VK_SUCCESS) [8] 0 w1 ≠ UB.
Proof.
  destruct (frame_hands_over 2 (demoDevice VK_SUCCESS VK_SUCCESS) [8] 0 0
              (demoWorld1 VK_SUCCESS VK_SUCCESS))
    as (owner & fence & available & finished & r & w1
        & _ & Hf & Ha & _ & Hacq & Hlog & Hsub).
  - lia.
  - split; [by vm_compute|]. split; by vm_compute.
  - split; by vm_compute.
  - exists r, w1. split; [exact Hacq|].
    vm_compute in Hf. injection Hf as <-. vm_compute in Ha. injection Ha as <-.
    split; [exact Hlog|]. intros E. cbv zeta in Hsub. by rewrite E in Hsub.
Defined.

(** X12. After a submission that threw, the slot has not advanced and
    the fence table already names the slot's fence for the image. That
    fence was reset by the failed call and handed to no submission that
    succeeded, yet it is the fence the next [acquireNextImage] waits for
    without a timeout, and, when it is not null, the fence a further
    [submitCommandBuffers] for the same image waits for first. *)
Theorem acquire_after_failed_submission (N : Z) (dev : EngineDevice)
    (buffers : list handle) (imageIndex : Z) (w w1 : World EngineSwapChain)
    (what : string) :
  submitCommandBuffers N dev buffers imageIndex w = Throw what w1 →
  ∃ (fence available : handle) (info : VkSubmitInfo.t) before,
    log w1 = before ++ [vkResetFences (device dev) [fence];
                        vkQueueSubmit (graphicsQueue dev) info fence] ∧
    vkStatus dev (log w1) ≠ VK_SUCCESS ∧
    currentFrame (this w1) = currentFrame (this w) ∧
    imagesInFlight (this w1) !! Z.to_nat imageIndex = Some fence ∧
    (∀ written, ∃ r,
       acquireNextImage dev written w1
       = Ok r (mkWorld (this w1)
                 (log w1 ++ [vkWaitForFences (device dev) [fence] true UINT64_MAX;
                             vkAcquireNextImageKHR (device dev) (swapchain (this w1))
                               UINT64_MAX available VK_NULL_HANDLE]))) ∧
    (fence ≠ VK_NULL_HANDLE → ∀ buffers', ∃ rest,
       log (world_after (submitCommandBuffers N dev buffers' imageIndex w1) w1)
       = log w1 ++ [vkWaitForFences (device dev) [fence] true UINT64_MAX] ++ rest).
Proof.
  intros Hthrow.
  assert (submitCommandBuffers N dev buffers imageIndex w ≠ UB) as Hdef
    by (rewrite Hthrow; discriminate).
  destruct (submitCommandBuffers_reads _ _ _ _ _ Hdef)
    as (owner & fence & available & finished & Ho & Hf & Ha & Hr).
  rewrite (submitCommandBuffers_steps _ _ _ _ _ _ _ _ _ Ho Hf Ha Hr) in Hthrow.
  cbv zeta in Hthrow.
  destruct (negb (vkStatus dev _ =? _)) eqn:Hst; [|discriminate].
  injection Hthrow as _ <-. cbn [this log].
  exists fence, available, (submitInfo_of available finished buffers),
    (log w ++ if negb (owner =? VK_NULL_HANDLE)
              then [vkWaitForFences (device dev) [owner] true UINT64_MAX] else []).
  assert (imagesInFlight
            (set_imagesInFlight (<[Z.to_nat imageIndex:=fence]> (imagesInFlight (this w)))
               (this w)) !! Z.to_nat imageIndex = Some fence) as Ho'.
  { destruct (this w); cbn. apply list_lookup_insert_eq. cbn in Ho.
    by eapply lookup_lt_Some. }
  split. { by rewrite <- app_assoc. }
  split. { apply negb_true_iff, Z.eqb_neq in Hst. exact Hst. }
  split. { by destruct (this w). }
  split. { exact Ho'. }
  split.
  - intros written. eexists.
    rewrite (acquireNextImage_steps dev written (mkWorld _ _) fence available).
    + cbv zeta. cbn [this log]. reflexivity.
    + cbn [this]. by destruct (this w).
    + cbn [this]. by destruct (this w).
  - intros Hnonnull buffers'. clear Hst.
    rewrite (submitCommandBuffers_steps N dev buffers' imageIndex (mkWorld _ _)
               fence fence available finished).
    + cbv zeta. cbn [this log]. apply Z.eqb_neq in Hnonnull. rewrite Hnonnull. cbn [negb].
      destruct (negb (vkStatus dev _ =? _)); unfold world_after.
      * exists [vkResetFences (device dev) [fence];
                vkQueueSubmit (graphicsQueue dev)
                  (submitInfo_of available finished buffers') fence].
        reflexivity.
      * exists [vkResetFences (device dev) [fence];
                vkQueueSubmit (graphicsQueue dev)
                  (submitInfo_of available finished buffers') fence;
                vkQueuePresentKHR (presentQueue dev)
                  (presentInfo_of finished (swapchain (this w)) imageIndex)].
        destruct (this w). simpl. rewrite <- !app_assoc. reflexivity.
    + exact Ho'.
    + cbn [this]. by destruct (this w).
    + cbn [this]. by destruct (this w).
    + cbn [this]. by destruct (this w).
Qed.

Lemma acquire_after_failed_submission_witness :
  ∃ (fence available : handle) r,
    acquireNextImage (demoDevice VK_ERROR_DEVICE_LOST VK_SUCCESS) 0
      (demoWorld1 VK_ERROR_DEVICE_LOST VK_SUCCESS)
    = Ok r (mkWorld (this (demoWorld1 VK_ERROR_DEVICE_LOST VK_SUCCESS))
              (log (demoWorld1 VK_ERROR_DEVICE_LOST VK_SUCCESS)
               ++ [vkWaitForFences (device (demoDevice VK_ERROR_DEVICE_LOST VK_SUCCESS))
                     [fence] true UINT64_MAX;
                   vkAcquireNextImageKHR (device (demoDevice VK_ERROR_DEVICE_LOST VK_SUCCESS))
                     (swapchain (this (demoWorld1 VK_ERROR_DEVICE_LOST VK_SUCCESS)))
                     UINT64_MAX available VK_NULL_HANDLE])).
Proof.
  destruct (acquire_after_failed_submission 2 (demoDevice VK_ERROR_DEVICE_LOST VK_SUCCESS)
              [7] 0 demoWorld0
              (demoWorld1 VK_ERROR_DEVICE_LOST VK_SUCCESS)
              "failed to submit draw command buffer!")
    as (fence & available & info & before & _ & _ & _ & _ & Hacq & _).
  - vm_compute; reflexivity.
  - destruct (Hacq 0) as [r Hr]. exists fence, available, r. exact Hr.
Defined.

(** ** The destructor *)

Lemma destroySyncObjects_releases (dev : EngineDevice) (s : EngineSwapChain) (n : nat)
    (i : Z) :
  0 ≤ i →
  (Z.to_nat i + n ≤ length (renderFinishedSemaphores s))%nat →
  (Z.to_nat i + n ≤ length (imageAvailableSemaphores s))%nat →
  (Z.to_nat i + n ≤ length (inFlightFences s))%nat →
  ∃ calls,
    destroySyncObjects dev s n i = Some calls ∧
    destroyedFences calls = take n (drop (Z.to_nat i) (inFlightFences s)) ∧
    destroyedSemaphores calls
      ≡ₚ take n (drop (Z.to_nat i) (renderFinishedSemaphores s))
         ++ take n (drop (Z.to_nat i) (imageAvailableSemaphores s)) ∧
    destroyedChains calls = [].
Proof.
  revert i. induction n as [|n IH]; intros i Hi Hr Ha Hf.
  { exists []. by rewrite !take_0. }
  destruct (lookup_lt_is_Some_2 (renderFinishedSemaphores s) (Z.to_nat i))
    as [finished Hfinished]; [lia|].
  destruct (lookup_lt_is_Some_2 (imageAvailableSemaphores s) (Z.to_nat i))
    as [available Havailable]; [lia|].
  destruct (lookup_lt_is_Some_2 (inFlightFences s) (Z.to_nat i))
    as [fence Hfence]; [lia|].
  assert (Z.to_nat (i + 1) = S (Z.to_nat i)) as Hnext by lia.
  destruct (IH (i + 1)) as (rest & Hrest & Hfences & Hsemaphores & Hchains);
    [lia..|].
  rewrite Hnext in Hfences, Hsemaphores.
  exists ([vkDestroySemaphore (device dev) finished;
           vkDestroySemaphore (device dev) available;
           vkDestroyFence (device dev) fence] ++ rest). split.
  { cbn [destroySyncObjects]. rewrite Hfinished, Havailable, Hfence. simpl.
    rewrite Hrest. simpl. reflexivity. }
  rewrite (drop_S _ _ _ Hfinished), (drop_S _ _ _ Havailable), (drop_S _ _ _ Hfence).
  cbn [take]. split; [|split].
  - unfold destroyedFences in *. by rewrite omap_app, Hfences.
  - unfold destroyedSemaphores in *. rewrite omap_app, Hsemaphores. simpl.
    by rewrite <- Permutation_middle.
  - unfold destroyedChains in *. by rewrite omap_app, Hchains.
Qed.

Lemma destroy_EngineSwapChain_sized (N : Z) (dev : EngineDevice) (s : EngineSwapChain) :
  sized N s →
  ∃ s' calls,
    destroy_EngineSwapChain N dev s = Some (s', calls) ∧
    destroyedFences calls = inFlightFences s ∧
    destroyedSemaphores calls
      ≡ₚ renderFinishedSemaphores s ++ imageAvailableSemaphores s ∧
    destroyedChains calls
      = (if swapchain s =? VK_NULL_HANDLE then [] else [swapchain s]) ∧
    swapchain s' = VK_NULL_HANDLE ∧
    swapchainAttachment s' = None.
Proof.
  intros (Ha & Hr & Hf & _). unfold destroy_EngineSwapChain. cbv zeta.
  set (s1 := if negb (swapchain (set_swapchainAttachment None s) =? VK_NULL_HANDLE)
             then set_swapchain VK_NULL_HANDLE (set_swapchainAttachment None s)
             else set_swapchainAttachment None s).
  assert (renderFinishedSemaphores s1 = renderFinishedSemaphores s ∧
          imageAvailableSemaphores s1 = imageAvailableSemaphores s ∧
          inFlightFences s1 = inFlightFences s ∧
          swapchain s1 = VK_NULL_HANDLE ∧ swapchainAttachment s1 = None)
    as (Hr1 & Ha1 & Hf1 & Hchain & Hattachment).
  { subst s1. destruct s as [? ? ? ? chain ? ? ? ? ? ? ?]. cbn.
    destruct (chain =? VK_NULL_HANDLE) eqn:E; cbn; [|done].
    apply Z.eqb_eq in E. done. }
  destruct (destroySyncObjects_releases dev s1 (Z.to_nat N) 0)
    as (calls & Hcalls & Hfences & Hsemaphores & Hchains);
    [lia|rewrite Hr1; simpl; lia|rewrite Ha1; simpl; lia|rewrite Hf1; simpl; lia|].
  rewrite Hcalls. simpl. eexists _, _. split; [reflexivity|].
  rewrite Hr1, Ha1, Hf1 in *. change (Z.to_nat 0) with 0%nat in *. rewrite !drop_0 in *.
  rewrite take_ge in Hfences by lia. rewrite !take_ge in Hsemaphores by lia.
  split; [|split; [|split; [|done]]].
  - unfold destroyedFences in *. rewrite omap_app, Hfences. by destruct (negb _).
  - unfold destroyedSemaphores in *. rewrite omap_app, Hsemaphores. by destruct (negb _).
  - unfold destroyedChains in *. rewrite omap_app, Hchains.
    by destruct (swapchain s =? VK_NULL_HANDLE).
Qed.

(** X13. On every state reached from an object whose semaphore and
    fence vectors have one entry per frame in flight, the destructor is
    defined and releases each object once: the fences of the slots in
    order, the semaphores of both vectors, and the chain when its handle
    is not null; it leaves the chain handle null and the attachment
    pointer empty. What the fence table holds is not released a second
    time. *)
Theorem destructor_releases_each_object_once (N : Z) (dev : EngineDevice)
    (w0 w : World EngineSwapChain) (k : nat) :
  sized N (this w0) →
  run N dev k w0 w →
  ∃ s' calls,
    destroy_EngineSwapChain N dev (this w) = Some (s', calls) ∧
    destroyedFences calls = inFlightFences (this w0) ∧
    destroyedSemaphores calls
      ≡ₚ renderFinishedSemaphores (this w0) ++ imageAvailableSemaphores (this w0) ∧
    destroyedChains calls
      = (if swapchain (this w0) =? VK_NULL_HANDLE then [] else [swapchain (this w0)]) ∧
    swapchain s' = VK_NULL_HANDLE ∧
    swapchainAttachment s' = None.
Proof.
  intros Hs Hrun.
  pose proof (run_keeps same_shape N dev k w0 w (exec_keeps_shape N dev) Hrun) as Hshape.
  pose proof (run_keeps same_resources N dev k w0 w (exec_keeps_resources N dev) Hrun)
    as (_ & _ & _ & _ & Hchain & _ & _ & Ha & Hr & Hf).
  rewrite Hchain, Ha, Hr, Hf.
  apply destroy_EngineSwapChain_sized. by apply (sized_same_shape N (this w0)).
Qed.

(** The demo swapchain after two frames: seven objects are released. *)
Lemma destructor_releases_each_object_once_witness :
  ∃ s' calls,
    destroy_EngineSwapChain 2 (demoDevice VK_SUCCESS VK_SUCCESS)
      (this (demoWorld2 VK_SUCCESS VK_SUCCESS)) = Some (s', calls) ∧
    destroyedFences calls = [107; 110] ∧
    destroyedChains calls = [102].
Proof.
  destruct (destructor_releases_each_object_once 2 (demoDevice VK_SUCCESS VK_SUCCESS)
              demoWorld0 (demoWorld2 VK_SUCCESS VK_SUCCESS) 2)
    as (s' & calls & Hdestroy & Hfences & _ & Hchains & _).
  - apply demoWorld0_wf.
  - apply demo_run.
  - exists s', calls. split; [exact Hdestroy|]. split; [exact Hfences|exact Hchains].
Defined.

(** ** The material's descriptor set *)

(** X14. [setMaterialSpecificDescriptorSet] followed by
    [getMaterialSpecificDescriptorSet] returns what was set, whatever
    was set before; setting issues no call and keeps the pipeline layout,
    so that [writePushConstants] records the same call after it as
    before it, and [writePushConstants] leaves the descriptor set as it
    was. *)
Theorem descriptor_set_round_trip `{Material_h.Payload T} (set : option handle)
    (cmdBuf : handle) (data : T) (w : World Material_h.Material) :
  ∃ w1,
    setMaterialSpecificDescriptorSet set w = Ok () w1 ∧
    getMaterialSpecificDescriptorSet w1 = Ok set w1 ∧
    log w1 = log w ∧
    Material_h.getPipelineLayout (this w1) = Material_h.getPipelineLayout (this w) ∧
    (∃ w2, Material_h.writePushConstants cmdBuf data w1 = Ok () w2 ∧
           getMaterialSpecificDescriptorSet w2 = Ok set w2 ∧
           ∃ w2', Material_h.writePushConstants cmdBuf data w = Ok () w2' ∧
                  log w2 = log w2').
Proof.
  destruct w as [m l]. eexists (mkWorld _ _). split; [reflexivity|].
  split; [reflexivity|]. split; [reflexivity|]. split; [reflexivity|].
  eexists (mkWorld _ _). split; [reflexivity|]. split; [reflexivity|].
  eexists (mkWorld _ _). split; reflexivity.
Qed.
